(** * insu: the reel download proxy (server.js)

    A shallow embedding of [server.js]: the URL validator, the metadata
    resolver [fetchVideoInfo], the media fetcher [fetchVideo], the
    [/download] route handler and the error middleware, together with the
    part of the HTTP client they drive (axios with the retry-axios
    interceptor attached at server.js:19).

    Conventions.
    - JavaScript strings are [string]s, one character per code unit up to
      255; payload values are the tagged union [value]; numbers that occur
      in payloads are integers below 2^53 in magnitude (the handler does
      no arithmetic on them).
    - A [throw] is the left summand of a [sum]; [await] is sequencing.
    - The outside world is a script of transport outcomes indexed by the
      number of the GET on that endpoint within the request being served,
      together with the decisions of the installed retry interceptor that
      its releases do not share.
    - [res] is the response object: the embedding records the calls the
      handler makes on it ([status], [setHeader], [send], [json]),
      [setHeader] refusing the values the runtime refuses; how the
      framework writes the response to the socket is outside server.js. *)

From Stdlib Require Import Bool Ascii String List ZArith Lia Arith DecimalString.
Import ListNotations.

Set Implicit Arguments.
Local Open Scope string_scope.

(** ** String helpers *)

Module Str.

(** Every character of [s] satisfies [p]. *)
Fixpoint forallb (p : ascii -> bool) (s : string) : bool :=
  match s with
  | EmptyString => true
  | String c s' => p c && forallb p s'
  end.

(** [String.prototype.includes]: [needle] occurs somewhere in [hay]. *)
Fixpoint includes (needle hay : string) : bool :=
  prefix needle hay ||
  match hay with
  | EmptyString => false
  | String _ hay' => includes needle hay'
  end.

End Str.

(** ** Regular expressions, as far as the validator's pattern needs them *)

Module Regex.

Inductive regex : Type :=
| Void : regex
| Eps : regex
| Class : (ascii -> bool) -> regex
| Cat : regex -> regex -> regex
| Alt : regex -> regex -> regex
| Star : regex -> regex.

(** [x?] and [x+] and a literal run of characters. *)
Definition Opt (r : regex) : regex := Alt r Eps.
Definition Plus (r : regex) : regex := Cat r (Star r).

Fixpoint Lit (s : string) : regex :=
  match s with
  | EmptyString => Eps
  | String c s' => Cat (Class (Ascii.eqb c)) (Lit s')
  end.

(** The words of a pattern. *)
Inductive matches : regex -> string -> Prop :=
| MEps : matches Eps ""
| MClass p c : p c = true -> matches (Class p) (String c "")
| MCat r1 r2 s1 s2 : matches r1 s1 -> matches r2 s2 -> matches (Cat r1 r2) (s1 ++ s2)
| MAltL r1 r2 s : matches r1 s -> matches (Alt r1 r2) s
| MAltR r1 r2 s : matches r2 s -> matches (Alt r1 r2) s
| MStar0 r : matches (Star r) ""
| MStarS r s1 s2 : matches r s1 -> matches (Star r) s2 -> matches (Star r) (s1 ++ s2).

Fixpoint nullable (r : regex) : bool :=
  match r with
  | Void => false
  | Eps => true
  | Class _ => false
  | Cat r1 r2 => nullable r1 && nullable r2
  | Alt r1 r2 => nullable r1 || nullable r2
  | Star _ => true
  end.

Fixpoint deriv (c : ascii) (r : regex) : regex :=
  match r with
  | Void => Void
  | Eps => Void
  | Class p => if p c then Eps else Void
  | Cat r1 r2 =>
      if nullable r1 then Alt (Cat (deriv c r1) r2) (deriv c r2)
      else Cat (deriv c r1) r2
  | Alt r1 r2 => Alt (deriv c r1) (deriv c r2)
  | Star r1 => Cat (deriv c r1) (Star r1)
  end.

(** [/^r/.test(s)]: the pattern is anchored at the start only, so the test
    succeeds as soon as some prefix of [s] is a word of [r]. *)
Fixpoint test_prefix (r : regex) (s : string) : bool :=
  nullable r ||
  match s with
  | EmptyString => false
  | String c s' => test_prefix (deriv c r) s'
  end.

(** [/^r$/.test(s)]: the whole of [s] is a word of [r]. *)
Fixpoint test_whole (r : regex) (s : string) : bool :=
  match s with
  | EmptyString => nullable r
  | String c s' => test_whole (deriv c r) s'
  end.

End Regex.

(** ** The URL validator (server.js:24-27) *)

(** The class [[A-Za-z0-9_-]]. *)
Definition id_char (c : ascii) : bool :=
  let n := nat_of_ascii c in
  (Nat.leb 65 n && Nat.leb n 90) || (Nat.leb 97 n && Nat.leb n 122) ||
  (Nat.leb 48 n && Nat.leb n 57) || Ascii.eqb c "_" || Ascii.eqb c "-".

(** The body of [/^https:\/\/(?:www\.)?instagram\.com\/reel\/([A-Za-z0-9_-]+)/]. *)
Definition reel_regex : Regex.regex :=
  Regex.Cat (Regex.Lit "https://")
    (Regex.Cat (Regex.Opt (Regex.Lit "www."))
       (Regex.Cat (Regex.Lit "instagram.com/reel/")
          (Regex.Plus (Regex.Class id_char)))).

Definition validateInstagramUrl (url : string) : bool :=
  Regex.test_prefix reel_regex url.

(** The form the specification names: [https://[www.]instagram.com/reel/<id>]
    and nothing after the id. *)
Definition reel_form (s : string) : Prop :=
  exists www id,
    (www = "" \/ www = "www.") /\ id <> "" /\ Str.forallb id_char id = true /\
    s = "https://" ++ www ++ "instagram.com/reel/" ++ id.

(** ** JavaScript values *)

(** An integral Number of magnitude below 2^53: in that range every
    integer is a Number and is printed as its decimal digits.  Fractions
    and larger magnitudes are outside the embedding. *)
Record int53 : Type := mkInt53 {
  int53_Z : Z;
  int53_safe : (Z.abs int53_Z <? 9007199254740992)%Z = true }.

(** The Number of an integer; a length never leaves the range. *)
Definition int53_of_Z (z : Z) : int53 :=
  (if (Z.abs z <? 9007199254740992)%Z as b
      return ((Z.abs z <? 9007199254740992)%Z = b -> int53)
   then fun H => mkInt53 z H
   else fun _ => mkInt53 9007199254740991 eq_refl) eq_refl.

#[warnings="-register-all"] Inductive value : Type :=
| VUndefined : value
| VNull : value
| VBool : bool -> value
| VNum : int53 -> value
| VStr : string -> value
| VObj : list (string * value) -> value
| VArr : list value -> value.

(** What [new Error(message)] carries as far as the server reads it. *)
Record Error : Type := mkError { message : string }.

(** [ToBoolean]. *)
Definition truthy (v : value) : bool :=
  match v with
  | VUndefined | VNull => false
  | VBool b => b
  | VNum n => negb (int53_Z n =? 0)%Z
  | VStr s => negb (s =? "")
  | VObj _ | VArr _ => true
  end.

Definition typeof (v : value) : string :=
  match v with
  | VUndefined => "undefined"
  | VBool _ => "boolean"
  | VNum _ => "number"
  | VStr _ => "string"
  | VNull | VObj _ | VArr _ => "object"
  end.

(** Own-property lookup in an object literal or a parsed JSON object. *)
Fixpoint lookup {A : Type} (k : string) (fields : list (string * A)) : option A :=
  match fields with
  | [] => None
  | (k', v) :: rest => if k' =? k then Some v else lookup k rest
  end.

Definition string_of_Z (n : Z) : string := NilZero.string_of_int (Z.to_int n).

(** [v.k]: reading a property of [undefined] or [null] throws a TypeError;
    a missing property reads as [undefined].  The server reads only the
    names [status], [data], [videoUrl] and [filename], which arrays and
    primitives do not have. *)
Definition get (v : value) (k : string) : Error + value :=
  match v with
  | VUndefined =>
      inl (mkError ("Cannot read properties of undefined (reading '" ++ k ++ "')"))
  | VNull =>
      inl (mkError ("Cannot read properties of null (reading '" ++ k ++ "')"))
  | VObj fields =>
      inr (match lookup k fields with Some x => x | None => VUndefined end)
  | VStr s =>
      inr (if k =? "length" then VNum (int53_of_Z (Z.of_nat (String.length s)))
           else VUndefined)
  | VArr l =>
      inr (if k =? "length" then VNum (int53_of_Z (Z.of_nat (List.length l)))
           else VUndefined)
  | VBool _ | VNum _ => inr VUndefined
  end.

(** [v?.k]: short-circuits to [undefined] on [undefined] and [null]. *)
Definition get_opt (v : value) (k : string) : value :=
  match v with
  | VUndefined | VNull => VUndefined
  | _ => match get v k with inr x => x | inl _ => VUndefined end
  end.

(** The string [ToString] yields for a value it can convert (see
    [convertible] and [ToString] below for the values it cannot). *)
Fixpoint toString (v : value) : string :=
  match v with
  | VUndefined => "undefined"
  | VNull => "null"
  | VBool true => "true"
  | VBool false => "false"
  | VNum n => string_of_Z (int53_Z n)
  | VStr s => s
  | VObj _ => "[object Object]"
  | VArr l =>
      (fix join (l : list value) : string :=
         match l with
         | [] => ""
         | x :: rest =>
             (match x with VUndefined | VNull => "" | _ => toString x end) ++
             (match rest with [] => "" | _ :: _ => "," ++ join rest end)
         end) l
  end.

(** Whether the conversion to a string goes through.  An object carrying
    an own [toString] property hides [Object.prototype.toString]; the
    property of a parsed payload is never callable and [valueOf] returns
    the object itself, so the conversion throws.  An array converts its
    elements, [null] and [undefined] apart. *)
Fixpoint convertible (v : value) : bool :=
  match v with
  | VObj fields =>
      match lookup "toString" fields with Some _ => false | None => true end
  | VArr l =>
      (fix all (l : list value) : bool :=
         match l with
         | [] => true
         | x :: rest => convertible x && all rest
         end) l
  | _ => true
  end.

(** [ToString], as [regex.test], [encodeURIComponent], a template literal
    and a header check apply it. *)
Definition ToString (v : value) : Error + string :=
  if convertible v then inr (toString v)
  else inl (mkError "Cannot convert object to primitive value").

(** [a === b] on primitives; object identity is not modelled (the server
    only ever compares a boolean with a string literal). *)
Definition strict_eq (a b : value) : bool :=
  match a, b with
  | VUndefined, VUndefined => true
  | VNull, VNull => true
  | VBool x, VBool y => Bool.eqb x y
  | VNum x, VNum y => (int53_Z x =? int53_Z y)%Z
  | VStr x, VStr y => (x =? y)
  | _, _ => false
  end.

(** ** The HTTP client: axios with the retry-axios interceptor

    Both packages are dependencies of the server, and the repository pins
    no release of either.  Embedded here is what a GET of [axiosInstance]
    goes through: axios' [settle], and of the interceptor the part on
    which its releases agree.  A failed GET is re-issued only while
    retries are left and, if it was answered, only on a status in
    [statusCodesToRetry]; the first failure of a request is re-issued
    unless the response names a [Retry-After].  Whether a later failure,
    or one whose response names a [Retry-After], is re-issued differs
    between releases (the instance the retry is sent through, the limit
    for failures without a response, the reading of [Retry-After] against
    the clock) and is left to the world.  The pauses between attempts are
    not modelled. *)

Module Http.

Section Client.

(** The type of a decoded response body: a parsed JSON value for the
    resolver endpoint, the bytes of an [arraybuffer] for the media URL. *)
Variable D : Type.

(** What one GET comes to at the transport: no response at all (network
    error, timeout, body over [maxContentLength]), or a response. *)
Inductive outcome : Type :=
| NoResponse : string -> outcome
| Responded : Z -> list (string * string) -> D -> outcome.

Record AxiosResponse : Type := mkResponse {
  resp_status : Z;
  resp_headers : list (string * string);
  resp_data : D }.

Record AxiosError : Type := mkAxiosError {
  err_message : string;
  err_response : option AxiosResponse }.

(** The retry-axios configuration once the interceptor has filled in its
    defaults. *)
Record RaxConfig : Type := mkRax {
  retry : nat;
  retryDelay : nat;
  statusCodesToRetry : list (Z * Z);
  currentRetryAttempt : nat }.

(** The [raxConfig] object a request may carry. *)
Record RaxOptions : Type := mkRaxOptions {
  o_retry : option nat;
  o_retryDelay : option nat;
  o_statusCodesToRetry : option (list (Z * Z)) }.

(** axios [settle]: a response resolves when it has no status or
    [validateStatus] accepts its status, and is rejected as an error
    carrying the response otherwise. *)
Definition settle (validateStatus : Z -> bool) (o : outcome)
  : AxiosError + AxiosResponse :=
  match o with
  | NoResponse msg => inl (mkAxiosError msg None)
  | Responded st hs d =>
      let r := mkResponse st hs d in
      if (st =? 0)%Z || validateStatus st then inr r
      else inl (mkAxiosError ("Request failed with status code " ++ string_of_Z st) (Some r))
  end.

(** axios' default [validateStatus]. *)
Definition validateStatus_default (st : Z) : bool := (200 <=? st)%Z && (st <? 300)%Z.

(** retry-axios' defaults: three retries, statuses 1xx, 429 and 5xx. *)
Definition rax_defaults (o : option RaxOptions) : RaxConfig :=
  let get_or {A} (f : RaxOptions -> option A) (d : A) : A :=
    match o with
    | Some r => match f r with Some x => x | None => d end
    | None => d
    end in
  {| retry := get_or o_retry 3;
     retryDelay := get_or o_retryDelay 100;
     statusCodesToRetry := get_or o_statusCodesToRetry [(100, 199); (429, 429); (500, 599)]%Z;
     currentRetryAttempt := 0 |}.

(** Each entry of [statusCodesToRetry] is an inclusive range [[min, max]]. *)
Definition in_ranges (st : Z) (ranges : list (Z * Z)) : bool :=
  existsb (fun r => (fst r <=? st)%Z && (st <=? snd r)%Z) ranges.

(** [headers['retry-after']] is there and not empty. *)
Definition names_retry_after (hs : list (string * string)) : bool :=
  match lookup "retry-after" hs with
  | Some v => negb (v =? "")
  | None => false
  end.

(** What every release requires of a failed GET (the method is GET, which
    is among the methods retried) before it re-issues it: retries are
    enabled, a response, if there is one, has a status in
    [statusCodesToRetry], and retries are left. *)
Definition may_retry (cfg : RaxConfig) (err : AxiosError) : bool :=
  negb (Nat.eqb (retry cfg) 0)
  && match err_response err with
     | Some r => (resp_status r =? 0)%Z
                 || in_ranges (resp_status r) (statusCodesToRetry cfg)
     | None => true
     end
  && Nat.ltb (currentRetryAttempt cfg) (retry cfg).

(** When no release asks further: at the first failure of a request,
    provided the response names no [Retry-After]. *)
Definition first_retry (cfg : RaxConfig) (err : AxiosError) : bool :=
  Nat.eqb (currentRetryAttempt cfg) 0
  && match err_response err with
     | Some r => negb (names_retry_after (resp_headers r))
     | None => true
     end.

(** The interceptor's decision; [granted] is the installed release's own
    answer where the releases differ. *)
Definition retries (granted : bool) (cfg : RaxConfig) (err : AxiosError) : bool :=
  may_retry cfg err && (first_retry cfg err || granted).

Definition next_attempt (cfg : RaxConfig) : RaxConfig :=
  {| retry := retry cfg;
     retryDelay := retryDelay cfg;
     statusCodesToRetry := statusCodesToRetry cfg;
     currentRetryAttempt := S (currentRetryAttempt cfg) |}.

(** One request through the instance: issue the GET number [calls] of the
    script [upstream]; on an error the interceptor either re-issues the
    request with the attempt counter advanced or rejects with the error.
    [library n] is the installed release's answer after GET number [n].
    The second component is the number of GETs issued so far. *)
Fixpoint request (fuel : nat) (validateStatus : Z -> bool)
    (upstream : nat -> outcome) (library : nat -> bool)
    (cfg : RaxConfig) (calls : nat)
  : option ((AxiosError + AxiosResponse) * nat) :=
  match fuel with
  | O => None
  | S fuel' =>
      match settle validateStatus (upstream calls) with
      | inr response => Some (inr response, S calls)
      | inl err =>
          if retries (library calls) cfg err
          then request fuel' validateStatus upstream library (next_attempt cfg) (S calls)
          else Some (inl err, S calls)
      end
  end.

(** [axiosInstance.get(url, config)]: the interceptor is attached to the
    instance, so every request made through it passes by [request]. *)
Definition axios_get (validateStatus : Z -> bool) (raxConfig : option RaxOptions)
    (upstream : nat -> outcome) (library : nat -> bool)
  : option ((AxiosError + AxiosResponse) * nat) :=
  let cfg := rax_defaults raxConfig in
  request (S (retry cfg)) validateStatus upstream library cfg 0.

End Client.

Arguments NoResponse {D} _.
Arguments Responded {D} _ _ _.

(** [headers[name]] of a response. *)
Definition header (D : Type) (r : AxiosResponse D) (name : string) : option string :=
  lookup name (resp_headers r).

End Http.

(** ** The server *)

Import Http.

(** The outside world of one request: the resolver endpoint answers the
    GETs for a reel URL, a media host the GETs for a video URL.  The
    resolver is asked at a fixed address with [encodeURIComponent(url)] as
    its query, so its script is indexed by [url] itself; timeouts, size
    caps and request headers are the transport's business and show in the
    outcomes only.  The installed retry-axios release belongs to the world
    too: [api_retries] and [media_retries] say, GET by GET, whether it
    grants a retry that the releases do not agree on. *)
Record World : Type := mkWorld {
  api : string -> nat -> outcome value;
  media : value -> nat -> outcome (list Byte.byte);
  api_retries : string -> nat -> bool;
  media_retries : value -> nat -> bool }.

(** How many GETs have gone out to each side. *)
Record Calls : Type := mkCalls { api_calls : nat; media_calls : nat }.

(** Computations of the server: they count upstream calls, may throw, and
    inherit the fuel of the client's retry loop.  [E] is what a throw
    carries. *)
Definition ME (E A : Type) : Type := Calls -> option ((E + A) * Calls).

Definition M (A : Type) : Type := ME Error A.

Definition ret {E A : Type} (a : A) : ME E A := fun c => Some (inr a, c).

Definition throw {E A : Type} (e : E) : ME E A := fun c => Some (inl e, c).

Definition bind {E A B : Type} (m : ME E A) (k : A -> ME E B) : ME E B :=
  fun c =>
    match m c with
    | None => None
    | Some (inl e, c') => Some (inl e, c')
    | Some (inr a, c') => k a c'
    end.

(** [try { m } catch (error) { handler error }]. *)
Definition try_catch {A : Type} (m : M A) (handler : Error -> M A) : M A :=
  fun c =>
    match m c with
    | None => None
    | Some (inl e, c') => handler e c'
    | Some (inr a, c') => Some (inr a, c')
    end.

Definition lift {A : Type} (r : Error + A) : M A := fun c => Some (r, c).

Notation "x <- m ;; k" := (bind m (fun x => k))
  (at level 61, m at next level, right associativity).

(** [await axiosInstance.get(...)] against the resolver endpoint. *)
Definition get_api (w : World) (url : string)
    (validateStatus : Z -> bool) (raxConfig : option RaxOptions)
  : M (AxiosResponse value) :=
  fun c =>
    match axios_get validateStatus raxConfig (api w url) (api_retries w url) with
    | None => None
    | Some (inl err, n) =>
        Some (inl (mkError (err_message err)), mkCalls (api_calls c + n) (media_calls c))
    | Some (inr response, n) =>
        Some (inr response, mkCalls (api_calls c + n) (media_calls c))
    end.

(** [await axiosInstance.get(...)] against the media URL. *)
Definition get_media (w : World) (videoUrl : value)
    (validateStatus : Z -> bool) (raxConfig : option RaxOptions)
  : M (AxiosResponse (list Byte.byte)) :=
  fun c =>
    match axios_get validateStatus raxConfig (media w videoUrl) (media_retries w videoUrl) with
    | None => None
    | Some (inl err, n) =>
        Some (inl (mkError (err_message err)), mkCalls (api_calls c) (media_calls c + n))
    | Some (inr response, n) =>
        Some (inr response, mkCalls (api_calls c) (media_calls c + n))
    end.

(** The [raxConfig] of server.js:34-42. *)
Definition raxConfig : RaxOptions :=
  {| o_retry := Some 3;
     o_retryDelay := Some 1000;
     o_statusCodesToRetry := Some [(408, 429); (500, 599)]%Z |}.

(** server.js:29-64. *)
Definition fetchVideoInfo (w : World) (url : string) : M value :=
  try_catch
    (response <- get_api w url (fun status => (status =? 200)%Z) (Some raxConfig) ;;
     let contentType := header response "content-type" in
     if match contentType with
        | Some ct => negb (ct =? "") && Str.includes "text/html" ct
        | None => false
        end
     then throw (mkError "API returned HTML instead of JSON")
     else if negb (truthy (resp_data response))
             || negb (typeof (resp_data response) =? "object")
     then throw (mkError "Invalid API response format")
     else ret (resp_data response))
    (fun error => throw (mkError ("Failed to fetch video info: " ++ message error))).

(** What [fetchVideo] hands back: [{ data, headers }]. *)
Record VideoResponse : Type := mkVideoResponse {
  vr_data : list Byte.byte;
  vr_headers : list (string * string) }.

(** server.js:66-90.  The request carries no [raxConfig] and keeps axios'
    default [validateStatus]. *)
Definition fetchVideo (w : World) (videoUrl : value) : M VideoResponse :=
  try_catch
    (response <- get_media w videoUrl validateStatus_default None ;;
     ret (mkVideoResponse (resp_data response) (resp_headers response)))
    (fun error => throw (mkError ("Failed to fetch video: " ++ message error))).

(** *** The response object *)

Inductive body : Type :=
| NoBody : body
| Json : value -> body
| Bytes : list Byte.byte -> body.

Record Response : Type := mkRes {
  res_status : Z;
  res_headers : list (string * value);
  res_body : body }.

(** A response nobody has touched yet answers 200. *)
Definition res0 : Response := mkRes 200 [] NoBody.

Definition status (code : Z) (res : Response) : Response :=
  mkRes code (res_headers res) (res_body res).

Definition json (v : value) (res : Response) : Response :=
  mkRes (res_status res) (res_headers res) (Json v).

Definition send (b : list Byte.byte) (res : Response) : Response :=
  mkRes (res_status res) (res_headers res) (Bytes b).

(** The characters a header value may hold: tab, and everything from the
    space on except DEL. *)
Definition header_char (c : ascii) : bool :=
  let n := nat_of_ascii c in
  Nat.eqb n 9 || (Nat.leb 32 n && negb (Nat.eqb n 127)).

Definition header_safe (s : string) : bool := Str.forallb header_char s.

Definition dquote : string := String (ascii_of_nat 34) "".

(** [res.setHeader(name, v)] throws on an [undefined] value and on a value
    whose string holds a character no header may hold; otherwise the
    header is set, replacing an earlier one of that name. *)
Definition setHeader (name : string) (v : value) (res : Response) : Error + Response :=
  match v with
  | VUndefined =>
      inl (mkError ("Invalid value " ++ dquote ++ "undefined" ++ dquote
                    ++ " for header " ++ dquote ++ name ++ dquote))
  | _ =>
      match ToString v with
      | inl e => inl e
      | inr s =>
          if header_safe s
          then inr (mkRes (res_status res)
                      (filter (fun h => negb (fst h =? name)) (res_headers res)
                       ++ [(name, v)])
                      (res_body res))
          else inl (mkError ("Invalid character in header content ["
                             ++ dquote ++ name ++ dquote ++ "]"))
      end
  end.

(** A header of an upstream response as a JavaScript value. *)
Definition header_value (h : option string) : value :=
  match h with Some s => VStr s | None => VUndefined end.

(** *** [GET /download] (server.js:92-155) *)

(** Inside the route a throw finds [res] as the handler has left it. *)
Definition Thrown : Type := (Error * Response)%type.

Definition on {A : Type} (res : Response) (m : M A) : ME Thrown A :=
  fun c =>
    match m c with
    | None => None
    | Some (inl e, c') => Some (inl (e, res), c')
    | Some (inr a, c') => Some (inr a, c')
    end.

(** The body of the [try] block; [url] is [req.query.url]. *)
Definition download_try (w : World) (url : value) : ME Thrown Response :=
  let res := res0 in
  if negb (truthy url)
  then ret (json (VObj [("error", VStr "URL parameter is required")]) (status 400 res))
  else
    s <- on res (lift (ToString url)) ;;
    if negb (validateInstagramUrl s)
    then ret (json (VObj [("error", VStr "Invalid Instagram reel URL format")]) (status 400 res))
    else
      videoInfo <- on res (fetchVideoInfo w s) ;;
      vstatus <- on res (lift (get videoInfo "status")) ;;
      vdata <- on res (lift (get videoInfo "data")) ;;
      if strict_eq (VBool (negb (truthy vstatus))) (VStr "success")
         || negb (truthy (get_opt vdata "videoUrl"))
      then ret (json (VObj [("error", VStr "Failed to get video URL from API")]) (status 400 res))
      else
        videoUrl <- on res (lift (get vdata "videoUrl")) ;;
        videoResponse <- on res (fetchVideo w videoUrl) ;;
        let contentType := lookup "content-type" (vr_headers videoResponse) in
        if negb (match contentType with
                 | Some ct => Str.includes "video" ct
                 | None => false
                 end)
        then ret (json (VObj [("error", VStr "Invalid video content type")]) (status 400 res))
        else
          res1 <- on res (lift (setHeader "Content-Type" (header_value contentType) res)) ;;
          res2 <- on res1 (lift (setHeader "Content-Length"
                                   (header_value (lookup "content-length"
                                                    (vr_headers videoResponse))) res1)) ;;
          filename <- on res2 (lift (get vdata "filename")) ;;
          name <- on res2 (lift (ToString filename)) ;;
          res3 <- on res2 (lift (setHeader "Content-Disposition"
                                   (VStr ("attachment; filename=" ++ name)) res2)) ;;
          res4 <- on res3 (lift (setHeader "Accept-Ranges" (VStr "bytes") res3)) ;;
          res5 <- on res4 (lift (setHeader "Cache-Control"
                                   (VStr "public, max-age=3600") res4)) ;;
          ret (send (vr_data videoResponse) res5).

(** [process.env.NODE_ENV === 'development']. *)
Definition development (NODE_ENV : option string) : bool :=
  match NODE_ENV with Some e => e =? "development" | None => false end.

(** The [catch] block of the route (server.js:139-154), run on [res] as
    the [try] block left it. *)
Definition download_catch_on (res : Response) (NODE_ENV : option string) (error : Error)
  : Response :=
  let errorMessage :=
    if development NODE_ENV then message error
    else "Failed to process video download" in
  json (VObj [("error", VStr "Internal server error"); ("message", VStr errorMessage)])
       (status 500 res).

(** The [catch] block on a response the [try] block has not touched. *)
Definition download_catch (NODE_ENV : option string) (error : Error) : Response :=
  download_catch_on res0 NODE_ENV error.

(** What came of serving one request. *)
Record Served : Type := mkServed { response : Response; calls : Calls }.

Definition download (NODE_ENV : option string) (w : World) (url : value) : option Served :=
  match download_try w url (mkCalls 0 0) with
  | None => None
  | Some (inr res, c) => Some (mkServed res c)
  | Some (inl (error, res), c) => Some (mkServed (download_catch_on res NODE_ENV error) c)
  end.

(** *** The error-handling middleware (server.js:163-174) *)

Definition error_middleware (NODE_ENV : option string) (err : Error) : Response :=
  json (VObj [("error", VStr "Something went wrong");
              ("message", if development NODE_ENV then VStr (message err) else VUndefined)])
       (status 500 res0).

(** *** [GET /health] and start-up (server.js:157-160, 176-180) *)

Definition health : Response :=
  json (VObj [("status", VStr "healthy")]) (status 200 res0).

(** [process.env.PORT || 3000]; an unset or empty variable is falsy. *)
Definition PORT (env_PORT : option string) : value :=
  match env_PORT with
  | Some p => if p =? "" then VNum (int53_of_Z 3000) else VStr p
  | None => VNum (int53_of_Z 3000)
  end.

(** [process.env.NODE_ENV !== 'test']: whether the module starts to listen. *)
Definition listens (NODE_ENV : option string) : bool :=
  match NODE_ENV with Some e => negb (e =? "test") | None => true end.

(** ** Scenarios

    Concrete requests and worlds, in the spirit of the repository's tests
    ([testUrl] is the URL the test suite downloads). *)

Module Scenario.

Import Http.

Definition testUrl : string := "https://www.instagram.com/reel/sample".

Definition clip : list Byte.byte := [Byte.x00; Byte.x00; Byte.x00; Byte.x18].

(** A release that grants every retry left to it: one that sends retries
    back through the attached instance, met by failures with a response
    that names no [Retry-After]. *)
Definition grants_all : nat -> bool := fun _ => true.

(** A release that grants none of them: one that sends the retry through
    another instance, so that a second failure is final. *)
Definition grants_none : nat -> bool := fun _ => false.

(** A world in which both endpoints meet the same release. *)
Definition world (a : string -> nat -> outcome value)
    (m : value -> nat -> outcome (list Byte.byte)) (library : nat -> bool) : World :=
  mkWorld a m (fun _ => library) (fun _ => library).

(** A resolver payload with the given [status] field. *)
Definition info (st : value) : value :=
  VObj [("status", st);
        ("data", VObj [("videoUrl", VStr "https://x/video.mp4");
                       ("filename", VStr "v.mp4")])].

(** The same payload without a [filename]. *)
Definition info_nameless : value :=
  VObj [("status", VStr "success");
        ("data", VObj [("videoUrl", VStr "https://x/video.mp4")])].

Definition json_ok (v : value) : nat -> outcome value :=
  fun _ => Responded 200 [("content-type", "application/json")] v.

Definition video_ok : nat -> outcome (list Byte.byte) :=
  fun _ => Responded 206 [("content-type", "video/mp4"); ("content-length", "4")] clip.

(** Everything works; the resolver reports [st] as its status. *)
Definition w_ok (st : value) : World :=
  world (fun _ => json_ok (info st)) (fun _ => video_ok) grants_none.

Definition w_nameless : World :=
  world (fun _ => json_ok info_nameless) (fun _ => video_ok) grants_none.

(** The resolver endpoint answers with an HTML page and status 200. *)
Definition w_html : World :=
  world (fun _ _ => Responded 200 [("content-type", "text/html; charset=utf-8")]
                      (VStr "<!doctype html>"))
        (fun _ => video_ok) grants_none.

(** The resolver endpoint answers 409 once, then a valid payload. *)
Definition w_409_once : World :=
  world (fun _ n => match n with
                    | O => Responded 409 [] VNull
                    | S _ => json_ok (info (VStr "success")) n
                    end)
        (fun _ => video_ok) grants_none.

(** The resolver endpoint answers 500 to the first [k] GETs; the release
    grants what is left to it. *)
Definition w_500_first (k : nat) : World :=
  world (fun _ n => if Nat.ltb n k then Responded 500 [] VNull
                    else json_ok (info (VStr "success")) n)
        (fun _ => video_ok) grants_all.

(** The resolver endpoint answers 500 to every GET; the release grants
    what is left to it. *)
Definition w_500_always : World :=
  world (fun _ _ => Responded 500 [] VNull) (fun _ => video_ok) grants_all.

(** The media host answers 503 once, then the video. *)
Definition w_media_503_once : World :=
  world (fun _ => json_ok (info (VStr "success")))
        (fun _ n => match n with
                    | O => Responded 503 [] []
                    | S _ => video_ok n
                    end)
        grants_none.

(** The media host answers with a text page. *)
Definition w_text_plain : World :=
  world (fun _ => json_ok (info (VStr "success")))
        (fun _ _ => Responded 200 [("content-type", "text/plain")] [])
        grants_none.

End Scenario.

(** ** Further scenarios *)

Module Upstreams.

Import Http.

(** The resolver endpoint answers 201 with a valid payload. *)
Definition w_201 : World :=
  Scenario.world
    (fun _ _ => Responded 201 [("content-type", "application/json")]
                  (Scenario.info (VStr "success")))
    (fun _ => Scenario.video_ok) Scenario.grants_all.

(** The resolver endpoint never answers. *)
Definition w_silent : World :=
  Scenario.world (fun _ _ => NoResponse "timeout of 15000ms exceeded")
    (fun _ => Scenario.video_ok) Scenario.grants_none.

(** The resolver endpoint answers 200 with a body that is not JSON. *)
Definition w_not_json : World :=
  Scenario.world (fun _ _ => Responded 200 [("content-type", "text/plain")] (VStr "ok"))
    (fun _ => Scenario.video_ok) Scenario.grants_all.

(** The resolver endpoint answers with an empty object. *)
Definition w_empty_info : World :=
  Scenario.world (fun _ => Scenario.json_ok (VObj [])) (fun _ => Scenario.video_ok)
    Scenario.grants_all.

(** The media host answers 404. *)
Definition w_media_404 : World :=
  Scenario.world (fun _ => Scenario.json_ok (Scenario.info (VStr "success")))
    (fun _ _ => Responded 404 [("content-type", "text/html")] [])
    Scenario.grants_all.

(** The media host sends the video without a content type. *)
Definition w_media_untyped : World :=
  Scenario.world (fun _ => Scenario.json_ok (Scenario.info (VStr "success")))
    (fun _ _ => Responded 200 [("content-length", "4")] Scenario.clip)
    Scenario.grants_all.

(** The media host sends the video without a content length, as a chunked
    answer has none. *)
Definition w_media_unsized : World :=
  Scenario.world (fun _ => Scenario.json_ok (Scenario.info (VStr "success")))
    (fun _ _ => Responded 200 [("content-type", "video/mp4")] Scenario.clip)
    Scenario.grants_none.

(** The resolver names a file with a line feed in it. *)
Definition w_name_with_newline : World :=
  Scenario.world
    (fun _ => Scenario.json_ok
                (VObj [("status", VStr "success");
                       ("data", VObj [("videoUrl", VStr "https://x/video.mp4");
                                      ("filename", VStr (String (ascii_of_nat 10) "v.mp4"))])]))
    (fun _ => Scenario.video_ok) Scenario.grants_none.

End Upstreams.

(** * Properties *)

(** ** Strings *)

Module StrFacts.

Lemma append_nil_r (s : string) : s ++ "" = s.
Proof. induction s as [|c s IH]; simpl; [reflexivity | now rewrite IH]. Qed.

Lemma append_assoc (a b c : string) : (a ++ b) ++ c = a ++ (b ++ c).
Proof. induction a as [|x a IH]; simpl; [reflexivity | now rewrite IH]. Qed.

Lemma append_eq_empty (a b : string) : a ++ b = "" -> a = "" /\ b = "".
Proof. destruct a; simpl; [auto | discriminate]. Qed.

Lemma forallb_app p a b :
  Str.forallb p (a ++ b) = Str.forallb p a && Str.forallb p b.
Proof.
  induction a as [|c a IH]; simpl; [reflexivity|].
  now rewrite IH, andb_assoc.
Qed.

End StrFacts.

(** ** The derivative matcher decides the words of a pattern *)

Module RegexFacts.

Import Regex.

Create HintDb re.
#[local] Hint Constructors matches : re.

Lemma matches_Cat r1 r2 s :
  matches (Cat r1 r2) s <->
  exists s1 s2, s = s1 ++ s2 /\ matches r1 s1 /\ matches r2 s2.
Proof.
  split.
  - intros H; inversion H; subst; eauto.
  - intros (s1 & s2 & -> & H1 & H2); auto with re.
Qed.

Lemma matches_Alt r1 r2 s :
  matches (Alt r1 r2) s <-> matches r1 s \/ matches r2 s.
Proof.
  split.
  - intros H; inversion H; subst; auto.
  - intros [H | H]; auto with re.
Qed.

Lemma matches_Eps s : matches Eps s <-> s = "".
Proof.
  split.
  - intros H; inversion H; reflexivity.
  - intros ->; auto with re.
Qed.

Lemma matches_Class p s :
  matches (Class p) s <-> exists c, s = String c "" /\ p c = true.
Proof.
  split.
  - intros H; inversion H; subst; eauto.
  - intros (c & -> & H); auto with re.
Qed.

Lemma matches_Void s : ~ matches Void s.
Proof. intros H; inversion H. Qed.

Lemma nullable_matches r : nullable r = true <-> matches r "".
Proof.
  split.
  - induction r; simpl; intros H; try discriminate; auto with re.
    + apply andb_true_iff in H as [H1 H2].
      change "" with ("" ++ ""); auto with re.
    + apply orb_true_iff in H as [H | H]; auto with re.
  - intros H. remember "" as w eqn:E.
    induction H; simpl; try reflexivity; try discriminate.
    + apply StrFacts.append_eq_empty in E as [-> ->].
      now rewrite IHmatches1, IHmatches2.
    + now rewrite IHmatches.
    + rewrite IHmatches by assumption. apply orb_true_r.
Qed.

Lemma deriv_sound c r : forall s, matches (deriv c r) s -> matches r (String c s).
Proof.
  induction r as [| |p|r1 IH1 r2 IH2|r1 IH1 r2 IH2|r1 IH1]; simpl; intros s H.
  - inversion H.
  - inversion H.
  - destruct (p c) eqn:Hp; inversion H; subst. now constructor.
  - destruct (nullable r1) eqn:Hn.
    + apply matches_Alt in H as [H | H].
      * apply matches_Cat in H as (s1 & s2 & -> & H1 & H2).
        change (String c (s1 ++ s2)) with (String c s1 ++ s2). auto with re.
      * change (String c s) with ("" ++ String c s).
        constructor; [now apply nullable_matches | auto].
    + apply matches_Cat in H as (s1 & s2 & -> & H1 & H2).
      change (String c (s1 ++ s2)) with (String c s1 ++ s2). auto with re.
  - apply matches_Alt in H as [H | H]; auto with re.
  - apply matches_Cat in H as (s1 & s2 & -> & H1 & H2).
    change (String c (s1 ++ s2)) with (String c s1 ++ s2). auto with re.
Qed.

Lemma deriv_complete r w :
  matches r w -> forall c s, w = String c s -> matches (deriv c r) s.
Proof.
  induction 1 as [|p c0 Hp|r1 r2 s1 s2 H1 IH1 H2 IH2|r1 r2 s0 H1 IH1
                 |r1 r2 s0 H1 IH1| r1 |r1 s1 s2 H1 IH1 H2 IH2];
    intros c s E; simpl.
  - discriminate.
  - injection E as -> <-. rewrite Hp. constructor.
  - destruct s1 as [|c1 s1'].
    + simpl in E. subst s2.
      apply nullable_matches in H1. rewrite H1.
      apply MAltR. now apply IH2.
    + simpl in E. injection E as -> <-.
      assert (matches (Cat (deriv c r1) r2) (s1' ++ s2)) by
        (constructor; [now apply IH1 | assumption]).
      destruct (nullable r1); auto with re.
  - apply MAltL. now apply IH1.
  - apply MAltR. now apply IH1.
  - discriminate.
  - destruct s1 as [|c1 s1'].
    + simpl in E. now apply IH2.
    + simpl in E. injection E as -> <-.
      constructor; [now apply IH1 | assumption].
Qed.

Lemma deriv_matches c r s : matches (deriv c r) s <-> matches r (String c s).
Proof.
  split; [apply deriv_sound | intros H; eapply deriv_complete; eauto].
Qed.

(** The anchored test finds exactly the strings with a prefix in the
    pattern. *)
Lemma test_prefix_spec : forall s r,
  test_prefix r s = true <-> exists p q, s = p ++ q /\ matches r p.
Proof.
  induction s as [|c s IH]; intros r; simpl.
  - rewrite orb_false_r, nullable_matches. split.
    + intros H. exists "", "". auto.
    + intros (p & q & E & H). symmetry in E.
      apply StrFacts.append_eq_empty in E as [-> _]. assumption.
  - rewrite orb_true_iff, nullable_matches, IH. split.
    + intros [H | (p & q & -> & H)].
      * exists "", (String c s). auto.
      * exists (String c p), q. split; [reflexivity | now apply deriv_matches].
    + intros (p & q & E & H). destruct p as [|c' p].
      * now left.
      * right. simpl in E. injection E as -> ->.
        exists p, q. split; [reflexivity | now apply deriv_matches].
Qed.

Lemma test_whole_spec : forall s r, test_whole r s = true <-> matches r s.
Proof.
  induction s as [|c s IH]; intros r; simpl.
  - apply nullable_matches.
  - rewrite IH. apply deriv_matches.
Qed.

Lemma matches_Lit : forall l s, matches (Lit l) s <-> s = l.
Proof.
  induction l as [|c l IH]; intros s; simpl.
  - apply matches_Eps.
  - rewrite matches_Cat. split.
    + intros (s1 & s2 & -> & H1 & H2).
      apply matches_Class in H1 as (c' & -> & Hc).
      apply Ascii.eqb_eq in Hc as <-. apply IH in H2 as ->. reflexivity.
    + intros ->. exists (String c ""), l. split; [reflexivity|]. split.
      * constructor. apply Ascii.eqb_refl.
      * now apply IH.
Qed.

Lemma matches_Star_Class p s :
  matches (Star (Class p)) s <-> Str.forallb p s = true.
Proof.
  split.
  - intros H. remember (Star (Class p)) as r eqn:E.
    induction H; try discriminate.
    + reflexivity.
    + injection E as ->. rewrite StrFacts.forallb_app.
      apply matches_Class in H as (c & -> & Hc). simpl.
      rewrite Hc. simpl. now apply IHmatches2.
  - induction s as [|c s IH]; simpl; intros H.
    + constructor.
    + apply andb_true_iff in H as [Hc Hs].
      change (String c s) with (String c "" ++ s).
      constructor; [now constructor | now apply IH].
Qed.

Lemma matches_Plus_Class p s :
  matches (Plus (Class p)) s <-> s <> "" /\ Str.forallb p s = true.
Proof.
  unfold Plus. rewrite matches_Cat. split.
  - intros (s1 & s2 & -> & H1 & H2).
    apply matches_Class in H1 as (c & -> & Hc).
    apply matches_Star_Class in H2. simpl. rewrite Hc, H2.
    split; [discriminate | reflexivity].
  - intros [Hne H]. destruct s as [|c s]; [now elim Hne|].
    simpl in H. apply andb_true_iff in H as [Hc Hs].
    exists (String c ""), s. split; [reflexivity|]. split.
    + now constructor.
    + now apply matches_Star_Class.
Qed.

End RegexFacts.

(** ** The URL validator *)

Module ValidatorFacts.

Import Regex RegexFacts.

(** The words of the validator's pattern are the strings of the reel form. *)
Lemma reel_regex_words p : matches reel_regex p <-> reel_form p.
Proof.
  unfold reel_regex, reel_form. split.
  - intros H.
    apply matches_Cat in H as (a & t1 & -> & Ha & H). apply matches_Lit in Ha as ->.
    apply matches_Cat in H as (www & t2 & -> & Hw & H).
    apply matches_Cat in H as (b & id & -> & Hb & Hid). apply matches_Lit in Hb as ->.
    apply matches_Plus_Class in Hid as [Hne Hid].
    exists www, id. repeat split; try assumption.
    apply matches_Alt in Hw as [Hw | Hw].
    + apply matches_Lit in Hw. now right.
    + apply matches_Eps in Hw. now left.
  - intros (www & id & Hw & Hne & Hid & ->).
    constructor; [now apply matches_Lit|].
    constructor.
    + destruct Hw as [-> | ->].
      * apply MAltR. constructor.
      * apply MAltL. now apply matches_Lit.
    + constructor; [now apply matches_Lit|].
      apply matches_Plus_Class. now split.
Qed.

Lemma reel_form_decide s : reel_form s <-> test_whole reel_regex s = true.
Proof. now rewrite test_whole_spec, reel_regex_words. Qed.

End ValidatorFacts.

(** C6, as the code has it: the pattern is anchored at the start only, so
    the validator accepts exactly the strings that begin with a reel URL
    [https://[www.]instagram.com/reel/<id>], whatever follows the id. *)
Theorem validateInstagramUrl_prefix (s : string) :
  validateInstagramUrl s = true <->
  exists f rest, reel_form f /\ s = f ++ rest.
Proof.
  unfold validateInstagramUrl. rewrite RegexFacts.test_prefix_spec. split.
  - intros (p & q & -> & H). exists p, q.
    split; [now apply ValidatorFacts.reel_regex_words | reflexivity].
  - intros (f & rest & H & ->). exists f, rest.
    split; [reflexivity | now apply ValidatorFacts.reel_regex_words].
Qed.

(** The test suite's URL, and the same URL with a query string after it. *)
Lemma validateInstagramUrl_prefix_witness :
  validateInstagramUrl "https://www.instagram.com/reel/sample?igshid=1" = true.
Proof.
  apply (proj2 (validateInstagramUrl_prefix "https://www.instagram.com/reel/sample?igshid=1")).
  exists "https://www.instagram.com/reel/sample", "?igshid=1".
  split; [|reflexivity].
  exists "www.", "sample".
  split; [now right|]. split; [discriminate|]. split; reflexivity.
Defined.

(** C6, refuted as stated: a string with more text after the id is
    accepted although it is not of the reel form. *)
Lemma validateInstagramUrl_accepts_trailing :
  validateInstagramUrl "https://www.instagram.com/reel/abc/../x?y=<z>" = true /\
  ~ reel_form "https://www.instagram.com/reel/abc/../x?y=<z>".
Proof.
  split; [reflexivity|].
  rewrite ValidatorFacts.reel_form_decide. discriminate.
Qed.

(** ** The client's retry loop *)

Module HttpFacts.

Import Http.

Section Loop.

Variable D : Type.
Implicit Types (cfg : RaxConfig) (err : AxiosError D) (upstream : nat -> outcome D).
Implicit Types (library : nat -> bool).

(** A retry is only granted while attempts are left. *)
Lemma retries_attempts_left granted cfg err :
  retries granted cfg err = true -> currentRetryAttempt cfg < retry cfg.
Proof.
  unfold retries, may_retry. intros H.
  apply andb_true_iff in H as [H _].
  apply andb_true_iff in H as [_ H].
  now apply Nat.ltb_lt in H.
Qed.

(** An answered failure with a status outside the ranges is never retried. *)
Lemma retries_out_of_range granted cfg msg st hs (d : D) :
  st <> 0%Z ->
  in_ranges st (statusCodesToRetry cfg) = false ->
  retries granted cfg (mkAxiosError msg (Some (mkResponse st hs d))) = false.
Proof.
  intros Hz Hr. unfold retries, may_retry. cbn [err_response resp_status].
  destruct (Z.eqb_spec st 0); [contradiction|].
  rewrite Hr. simpl. now rewrite andb_false_r.
Qed.

(** The first failure of a request is retried whatever the release, when
    retries are configured, the status (if any) is in range and no
    [Retry-After] is named. *)
Lemma retries_first granted cfg err :
  currentRetryAttempt cfg = 0 -> 0 < retry cfg ->
  match err_response err with
  | Some r => in_ranges (resp_status r) (statusCodesToRetry cfg) = true /\
              names_retry_after (resp_headers r) = false
  | None => True
  end ->
  retries granted cfg err = true.
Proof.
  intros Hc Hr He. unfold retries, may_retry, first_retry. rewrite Hc.
  destruct (retry cfg) as [|k]; [lia|]. simpl.
  destruct (err_response err) as [r|].
  - destruct He as [-> ->]. simpl. now rewrite orb_true_r.
  - reflexivity.
Qed.

(** A retry the release grants is made whenever no release rules it out. *)
Lemma retries_granted cfg err :
  may_retry cfg err = true -> retries true cfg err = true.
Proof. intros H. unfold retries. rewrite H. simpl. apply orb_true_r. Qed.

(** With fuel beyond the attempts that are left the loop ends, after at
    least one GET and at most one more than the attempts left. *)
Lemma request_total validateStatus upstream library :
  forall fuel cfg calls,
    retry cfg - currentRetryAttempt cfg < fuel ->
    exists r n,
      request fuel validateStatus upstream library cfg calls = Some (r, n) /\
      calls < n <= calls + 1 + (retry cfg - currentRetryAttempt cfg).
Proof.
  induction fuel as [|fuel IH]; intros cfg calls Hf; [lia|].
  simpl. destruct (settle validateStatus (upstream calls)) as [err | resp].
  - destruct (retries (library calls) cfg err) eqn:Hr.
    + apply retries_attempts_left in Hr.
      destruct (IH (next_attempt cfg) (S calls)) as (r & n & E & Hn).
      { simpl. lia. }
      exists r, n. split; [exact E|]. simpl in Hn. lia.
    + exists (inl err), (S calls). split; [reflexivity | lia].
  - exists (inr resp), (S calls). split; [reflexivity | lia].
Qed.

(** The three ways one turn of the loop can go. *)
Lemma request_resolve fuel validateStatus upstream library cfg calls resp :
  settle validateStatus (upstream calls) = inr resp ->
  request (S fuel) validateStatus upstream library cfg calls = Some (inr resp, S calls).
Proof. intros E. simpl. now rewrite E. Qed.

Lemma request_reject fuel validateStatus upstream library cfg calls err :
  settle validateStatus (upstream calls) = inl err ->
  retries (library calls) cfg err = false ->
  request (S fuel) validateStatus upstream library cfg calls = Some (inl err, S calls).
Proof. intros E R. simpl. now rewrite E, R. Qed.

Lemma request_retry fuel validateStatus upstream library cfg calls err :
  settle validateStatus (upstream calls) = inl err ->
  retries (library calls) cfg err = true ->
  request (S fuel) validateStatus upstream library cfg calls =
  request fuel validateStatus upstream library (next_attempt cfg) (S calls).
Proof. intros E R. simpl. now rewrite E, R. Qed.

(** A GET answered with a status outside the ranges is the last one. *)
Lemma request_stops validateStatus upstream library n st hs (d : D) :
  upstream n = Responded st hs d ->
  forall fuel cfg calls r k,
    in_ranges st (statusCodesToRetry cfg) = false ->
    calls <= n ->
    request fuel validateStatus upstream library cfg calls = Some (r, k) ->
    k <= S n.
Proof.
  intros Hn. induction fuel as [|fuel IH]; intros cfg calls r k Hr Hc E;
    [discriminate|].
  simpl in E.
  destruct (settle validateStatus (upstream calls)) as [err | resp] eqn:Es.
  - destruct (retries (library calls) cfg err) eqn:R.
    + assert (calls <> n).
      { intros ->. rewrite Hn in Es. unfold settle in Es.
        destruct ((st =? 0)%Z || validateStatus st) eqn:Ev; [discriminate|].
        injection Es as <-. apply orb_false_iff in Ev as [E0 _].
        apply Z.eqb_neq in E0.
        rewrite (retries_out_of_range _ cfg _ hs d E0 Hr) in R. discriminate. }
      apply (IH (next_attempt cfg) (S calls) r k); [exact Hr | lia | exact E].
    + injection E as _ <-. lia.
  - injection E as _ <-. lia.
Qed.

(** Whatever the loop returns, it has issued a GET. *)
Lemma request_progress validateStatus upstream library :
  forall fuel cfg calls r k,
    request fuel validateStatus upstream library cfg calls = Some (r, k) -> calls < k.
Proof.
  induction fuel as [|fuel IH]; intros cfg calls r k E; [discriminate|].
  simpl in E.
  destruct (settle validateStatus (upstream calls)) as [err | resp].
  - destruct (retries (library calls) cfg err).
    + apply IH in E. lia.
    + injection E as _ <-. lia.
  - injection E as _ <-. lia.
Qed.

(** A loop that goes past its first GET issues at least two. *)
Lemma request_second fuel validateStatus upstream library cfg err r k :
  settle validateStatus (upstream 0) = inl err ->
  retries (library 0) cfg err = true ->
  request (S fuel) validateStatus upstream library cfg 0 = Some (r, k) ->
  2 <= k.
Proof.
  intros Es R E. rewrite (request_retry _ _ _ _ _ _ Es R) in E.
  apply request_progress in E. lia.
Qed.

Lemma in_ranges_default (st : Z) :
  in_ranges st (statusCodesToRetry (rax_defaults None)) = true <->
  (100 <= st <= 199 \/ st = 429 \/ 500 <= st <= 599)%Z.
Proof.
  unfold in_ranges. simpl.
  destruct (Z.leb_spec 100 st), (Z.leb_spec st 199), (Z.leb_spec 429 st),
           (Z.leb_spec st 429), (Z.leb_spec 500 st), (Z.leb_spec st 599); simpl;
    (split; [intros Hb; try discriminate Hb; lia | intros Hr; try reflexivity; lia]).
Qed.

Lemma axios_get_total validateStatus o upstream library :
  exists r n,
    axios_get validateStatus o upstream library = Some (r, n) /\
    1 <= n <= S (retry (rax_defaults o)).
Proof.
  unfold axios_get.
  destruct (request_total validateStatus upstream library
              (fuel := S (retry (rax_defaults o))) (rax_defaults o) 0)
    as (r & n & E & Hn).
  { lia. }
  exists r, n. split; [exact E | lia].
Qed.

(** A request whose first GET resolves is over after that GET. *)
Lemma axios_get_resolved validateStatus o upstream library resp :
  settle validateStatus (upstream 0) = inr resp ->
  axios_get validateStatus o upstream library = Some (inr resp, 1).
Proof. intros E. unfold axios_get. now apply request_resolve. Qed.

(** So is one whose first error the interceptor declines to retry. *)
Lemma axios_get_rejected validateStatus o upstream library err :
  settle validateStatus (upstream 0) = inl err ->
  retries (library 0) (rax_defaults o) err = false ->
  axios_get validateStatus o upstream library = Some (inl err, 1).
Proof. intros E R. unfold axios_get. now apply request_reject. Qed.

End Loop.

End HttpFacts.

(** ** The metadata resolver *)

Module ResolverFacts.

Import Http HttpFacts.

(** [fetchVideoInfo] in terms of what the client hands back: the [catch]
    re-wraps every failure, and the calls land on the resolver's counter. *)
Lemma fetchVideoInfo_run w url c r n :
  axios_get (fun st => (st =? 200)%Z) (Some raxConfig) (api w url) (api_retries w url)
  = Some (r, n) ->
  fetchVideoInfo w url c =
  Some (match r with
        | inl err => inl (mkError ("Failed to fetch video info: " ++ err_message err))
        | inr resp =>
            if match header resp "content-type" with
               | Some ct => negb (ct =? "") && Str.includes "text/html" ct
               | None => false
               end
            then inl (mkError "Failed to fetch video info: API returned HTML instead of JSON")
            else if negb (truthy (resp_data resp))
                    || negb (typeof (resp_data resp) =? "object")
            then inl (mkError "Failed to fetch video info: Invalid API response format")
            else inr (resp_data resp)
        end,
        mkCalls (api_calls c + n) (media_calls c)).
Proof.
  intros E. unfold fetchVideoInfo, try_catch, bind, get_api. rewrite E.
  destruct r as [err | resp]; [reflexivity|].
  destruct (match header resp "content-type" with
            | Some ct => negb (ct =? "") && Str.includes "text/html" ct
            | None => false end); [reflexivity|].
  destruct (negb (truthy (resp_data resp))
            || negb (typeof (resp_data resp) =? "object")); reflexivity.
Qed.

(** The resolver always comes back, after one to four GETs on its own
    endpoint and none on the media side. *)
Lemma fetchVideoInfo_total w url c :
  exists r c',
    fetchVideoInfo w url c = Some (r, c') /\
    api_calls c + 1 <= api_calls c' <= api_calls c + 4 /\
    media_calls c' = media_calls c.
Proof.
  destruct (axios_get_total (fun st => (st =? 200)%Z) (Some raxConfig)
              (api w url) (api_retries w url))
    as (r & n & E & Hn).
  rewrite (fetchVideoInfo_run w url c E).
  eexists _, _. split; [reflexivity|]. simpl in *. lia.
Qed.

(** A 500 is rejected by [validateStatus] and is in a retried range. *)
Lemma settle_500 hs (d : value) :
  settle (fun st => (st =? 200)%Z) (Responded 500 hs d) =
  inl (mkAxiosError "Request failed with status code 500" (Some (mkResponse 500 hs d))).
Proof. reflexivity. Qed.

(** What the resolver's [validateStatus] makes of a status other than 200. *)
Lemma settle_not_200 (st : Z) hs (d : value) :
  st <> 0%Z -> st <> 200%Z ->
  settle (fun s => (s =? 200)%Z) (Responded st hs d) =
  inl (mkAxiosError ("Request failed with status code " ++ string_of_Z st)
         (Some (mkResponse st hs d))).
Proof.
  intros H0 H200. unfold settle.
  destruct (Z.eqb_spec st 0); [contradiction|].
  destruct (Z.eqb_spec st 200); [contradiction|]. reflexivity.
Qed.

Lemma in_ranges_metadata (st : Z) :
  in_ranges st (statusCodesToRetry (rax_defaults (Some raxConfig))) = true <->
  (408 <= st <= 429 \/ 500 <= st <= 599)%Z.
Proof.
  unfold in_ranges. simpl.
  destruct (Z.leb_spec 408 st), (Z.leb_spec st 429),
           (Z.leb_spec 500 st), (Z.leb_spec st 599); simpl;
    (split; [intros Hb; try discriminate Hb; lia | intros Hr; try reflexivity; lia]).
Qed.

Lemma out_of_ranges_metadata (st : Z) :
  ~ (408 <= st <= 429 \/ 500 <= st <= 599)%Z ->
  in_ranges st (statusCodesToRetry (rax_defaults (Some raxConfig))) = false.
Proof.
  intros H. destruct (in_ranges st _) eqn:E; [|reflexivity].
  apply in_ranges_metadata in E. contradiction.
Qed.

End ResolverFacts.

(** C3, as the code has it: each entry of [statusCodesToRetry] is a range.
    A GET of the resolver answered with a status outside 408..429 and
    500..599 is never followed by another one; a first GET answered with a
    status in 408..429 or in 500..599, naming no [Retry-After], is always
    followed by a second one. *)
Theorem metadata_retry_statuses (w : World) (url : string) (c : Calls) :
  exists r c',
    fetchVideoInfo w url c = Some (r, c') /\
    (forall n st hs d,
       api w url n = Http.Responded st hs d ->
       ~ (408 <= st <= 429 \/ 500 <= st <= 599)%Z ->
       api_calls c' <= api_calls c + S n) /\
    (forall st hs d,
       api w url 0 = Http.Responded st hs d ->
       (408 <= st <= 429 \/ 500 <= st <= 599)%Z ->
       Http.names_retry_after hs = false ->
       api_calls c + 2 <= api_calls c').
Proof.
  destruct (HttpFacts.axios_get_total (fun st => (st =? 200)%Z) (Some raxConfig)
              (api w url) (api_retries w url))
    as (r & k & E & _).
  rewrite (ResolverFacts.fetchVideoInfo_run w url c E).
  eexists _, _. split; [reflexivity|]. simpl. unfold Http.axios_get in E. split.
  - intros n st hs d Hn Hout.
    assert (k <= S n); [|lia].
    eapply HttpFacts.request_stops;
      [exact Hn | apply ResolverFacts.out_of_ranges_metadata; exact Hout
       | apply Nat.le_0_l | exact E].
  - intros st hs d H0 Hin Hra.
    assert (Hs : Http.settle (fun s => (s =? 200)%Z) (api w url 0) =
                 inl (Http.mkAxiosError
                        ("Request failed with status code " ++ string_of_Z st)
                        (Some (Http.mkResponse st hs d)))).
    { rewrite H0. apply ResolverFacts.settle_not_200; lia. }
    assert (2 <= k); [|lia].
    eapply HttpFacts.request_second; [exact Hs | | exact E].
    apply HttpFacts.retries_first; [reflexivity | simpl; lia |].
    cbn [Http.err_response Http.resp_status Http.resp_headers].
    split; [now apply ResolverFacts.in_ranges_metadata | exact Hra].
Qed.

(** A 409 without [Retry-After], met by a release that grants nothing of
    its own. *)
Lemma metadata_retry_statuses_witness :
  exists r c',
    fetchVideoInfo Scenario.w_409_once Scenario.testUrl (mkCalls 0 0) = Some (r, c') /\
    0 + 2 <= api_calls c'.
Proof.
  destruct (metadata_retry_statuses Scenario.w_409_once Scenario.testUrl (mkCalls 0 0))
    as (r & c' & E & _ & Hsecond).
  exists r, c'. split; [exact E|].
  apply (Hsecond 409%Z [] VNull); [reflexivity | lia | reflexivity].
Defined.

(** C3, refuted as stated: 409 is none of the statuses the claim lists, yet
    it is retried; a resolver endpoint that answers 409 once and a valid
    payload afterwards receives two GETs. *)
Lemma metadata_retries_409 :
  ~ (409 = 408 \/ 409 = 429 \/ 500 <= 409 <= 599)%Z /\
  fetchVideoInfo Scenario.w_409_once Scenario.testUrl (mkCalls 0 0)
  = Some (inr (Scenario.info (VStr "success")), mkCalls 2 0).
Proof.
  split; [lia | reflexivity].
Qed.

(** C4, as the code has it: [retry: 3] grants up to three retries after the
    first attempt, so every resolution ends after one to four GETs.  Where
    the answers name no [Retry-After] and the installed release grants
    every later retry left to it, an endpoint answering 500 twice and
    then a valid payload succeeds with the third GET, and an endpoint
    answering 500 throughout fails as a resolution error after exactly
    four GETs. *)
Theorem fetchVideoInfo_attempts (w : World) (url : string) :
  (exists r c,
     fetchVideoInfo w url (mkCalls 0 0) = Some (r, c) /\
     1 <= api_calls c <= 4 /\ media_calls c = 0) /\
  ((forall n, 1 <= n -> api_retries w url n = true) ->
   forall hs0 d0 hs1 d1 hs2 d2,
     api w url 0 = Http.Responded 500 hs0 d0 ->
     Http.names_retry_after hs0 = false ->
     api w url 1 = Http.Responded 500 hs1 d1 ->
     Http.names_retry_after hs1 = false ->
     api w url 2 = Http.Responded 200 hs2 d2 ->
     (forall ct, lookup "content-type" hs2 = Some ct -> Str.includes "text/html" ct = false) ->
     truthy d2 = true -> typeof d2 = "object" ->
     fetchVideoInfo w url (mkCalls 0 0) = Some (inr d2, mkCalls 3 0)) /\
  ((forall n, 1 <= n -> api_retries w url n = true) ->
   (forall n, exists hs d,
      api w url n = Http.Responded 500 hs d /\ Http.names_retry_after hs = false) ->
   fetchVideoInfo w url (mkCalls 0 0) =
   Some (inl (mkError "Failed to fetch video info: Request failed with status code 500"),
         mkCalls 4 0)).
Proof.
  assert (Hfirst : forall granted hs (d : value),
             Http.names_retry_after hs = false ->
             Http.retries granted (Http.rax_defaults (Some raxConfig))
               (Http.mkAxiosError "Request failed with status code 500"
                  (Some (Http.mkResponse 500 hs d))) = true).
  { intros granted hs d Hra. apply HttpFacts.retries_first; [reflexivity | simpl; lia |].
    cbn [Http.err_response Http.resp_status Http.resp_headers].
    split; [reflexivity | exact Hra]. }
  split; [|split].
  - destruct (ResolverFacts.fetchVideoInfo_total w url (mkCalls 0 0))
      as (r & c & E & Hn & Hm).
    exists r, c. simpl in *. split; [exact E | lia].
  - intros Hg hs0 d0 hs1 d1 hs2 d2 H0 Hra0 H1 Hra1 H2 Hct Ht Hty.
    erewrite ResolverFacts.fetchVideoInfo_run with (n := 3)
      (r := inr (Http.mkResponse 200 hs2 d2)).
    + unfold Http.header. simpl.
      rewrite Ht, Hty. simpl.
      destruct (lookup "content-type" hs2) as [ct|] eqn:El; [|reflexivity].
      rewrite (Hct ct eq_refl), andb_false_r. reflexivity.
    + unfold Http.axios_get.
      change (Http.retry (Http.rax_defaults (Some raxConfig))) with 3.
      erewrite HttpFacts.request_retry;
        [| rewrite H0; apply ResolverFacts.settle_500 | now apply Hfirst].
      erewrite HttpFacts.request_retry;
        [| rewrite H1; apply ResolverFacts.settle_500
         | rewrite Hg by lia; apply HttpFacts.retries_granted; reflexivity].
      erewrite HttpFacts.request_resolve; [reflexivity|].
      rewrite H2. reflexivity.
  - intros Hg H.
    destruct (H 0) as (hs0 & d0 & H0 & Hra0). destruct (H 1) as (hs1 & d1 & H1 & _).
    destruct (H 2) as (hs2 & d2 & H2 & _). destruct (H 3) as (hs3 & d3 & H3 & _).
    erewrite ResolverFacts.fetchVideoInfo_run with (n := 4)
      (r := inl (Http.mkAxiosError "Request failed with status code 500"
                   (Some (Http.mkResponse 500 hs3 d3)))).
    + reflexivity.
    + unfold Http.axios_get.
      change (Http.retry (Http.rax_defaults (Some raxConfig))) with 3.
      erewrite HttpFacts.request_retry;
        [| rewrite H0; apply ResolverFacts.settle_500 | now apply Hfirst].
      erewrite HttpFacts.request_retry;
        [| rewrite H1; apply ResolverFacts.settle_500
         | rewrite Hg by lia; apply HttpFacts.retries_granted; reflexivity].
      erewrite HttpFacts.request_retry;
        [| rewrite H2; apply ResolverFacts.settle_500
         | rewrite Hg by lia; apply HttpFacts.retries_granted; reflexivity].
      erewrite HttpFacts.request_reject;
        [reflexivity | rewrite H3; apply ResolverFacts.settle_500 |].
      unfold Http.retries, Http.may_retry. simpl. reflexivity.
Qed.

(** The two retry-bound scenarios of the specification, met by a release
    that grants every retry left to it. *)
Lemma fetchVideoInfo_attempts_witness :
  fetchVideoInfo (Scenario.w_500_first 2) Scenario.testUrl (mkCalls 0 0)
  = Some (inr (Scenario.info (VStr "success")), mkCalls 3 0) /\
  fetchVideoInfo Scenario.w_500_always Scenario.testUrl (mkCalls 0 0)
  = Some (inl (mkError "Failed to fetch video info: Request failed with status code 500"),
          mkCalls 4 0).
Proof.
  split.
  - apply (proj1 (proj2 (fetchVideoInfo_attempts (Scenario.w_500_first 2) Scenario.testUrl)))
      with (hs0 := []) (d0 := VNull) (hs1 := []) (d1 := VNull)
           (hs2 := [("content-type", "application/json")]);
      try reflexivity.
    intros ct H. injection H as <-. reflexivity.
  - apply (proj2 (proj2 (fetchVideoInfo_attempts Scenario.w_500_always Scenario.testUrl))).
    + reflexivity.
    + intros n. exists [], VNull. split; reflexivity.
Defined.

(** C4, refuted as stated: against an endpoint that answers 500 throughout,
    and with a release that sends its retries back through the attached
    instance, the resolver gives up after its fourth GET, not its third. *)
Lemma fetchVideoInfo_fourth_call :
  exists e c,
    fetchVideoInfo Scenario.w_500_always Scenario.testUrl (mkCalls 0 0) = Some (inl e, c) /\
    api_calls c = 4 /\ ~ api_calls c <= 3.
Proof.
  eexists _, _. split; [reflexivity|]. simpl. split; [reflexivity | lia].
Qed.

(** ** The media fetcher *)

Module FetcherFacts.

Import Http HttpFacts.

Lemma fetchVideo_run w videoUrl c r n :
  axios_get validateStatus_default None (media w videoUrl) (media_retries w videoUrl)
  = Some (r, n) ->
  fetchVideo w videoUrl c =
  Some (match r with
        | inl err => inl (mkError ("Failed to fetch video: " ++ err_message err))
        | inr resp => inr (mkVideoResponse (resp_data resp) (resp_headers resp))
        end,
        mkCalls (api_calls c) (media_calls c + n)).
Proof.
  intros E. unfold fetchVideo, try_catch, bind, get_media. rewrite E.
  destruct r; reflexivity.
Qed.

(** The fetcher always comes back, after one to four GETs on the media
    side and none on the resolver's. *)
Lemma fetchVideo_total w videoUrl c :
  exists r c',
    fetchVideo w videoUrl c = Some (r, c') /\
    api_calls c' = api_calls c /\
    media_calls c + 1 <= media_calls c' <= media_calls c + 4.
Proof.
  destruct (axios_get_total validateStatus_default None
              (media w videoUrl) (media_retries w videoUrl))
    as (r & n & E & Hn).
  rewrite (fetchVideo_run w videoUrl c E).
  eexists _, _. split; [reflexivity|]. simpl in *. lia.
Qed.

Lemma out_of_ranges_default (st : Z) :
  ~ (100 <= st <= 199 \/ st = 429 \/ 500 <= st <= 599)%Z ->
  in_ranges st (statusCodesToRetry (rax_defaults None)) = false.
Proof.
  intros H. destruct (in_ranges st _) eqn:E; [|reflexivity].
  apply in_ranges_default in E. contradiction.
Qed.

(** What axios' default [validateStatus] makes of a status that is not
    2xx. *)
Lemma settle_not_2xx (st : Z) hs (d : list Byte.byte) :
  st <> 0%Z -> ~ (200 <= st < 300)%Z ->
  settle validateStatus_default (Responded st hs d) =
  inl (mkAxiosError ("Request failed with status code " ++ string_of_Z st)
         (Some (mkResponse st hs d))).
Proof.
  intros Hz H2xx. unfold settle, validateStatus_default.
  destruct (Z.eqb_spec st 0); [contradiction|].
  destruct (Z.leb_spec 200 st), (Z.ltb_spec st 300); simpl; try reflexivity. lia.
Qed.

End FetcherFacts.

(** C5, as the code has it: the media fetch goes through the instance the
    retry interceptor is attached to and carries no [raxConfig], so the
    interceptor's defaults apply.  Every media fetch comes back after one
    to four GETs (none to the resolver).  A GET answered with a status
    outside 100..199, 429 and 500..599 is never followed by another one;
    a first GET that gets no response, or a status in those ranges with
    no [Retry-After], is always followed by a second one. *)
Theorem fetchVideo_requests (w : World) (videoUrl : value) (c0 : Calls) :
  exists r c,
    fetchVideo w videoUrl c0 = Some (r, c) /\
    api_calls c = api_calls c0 /\
    media_calls c0 + 1 <= media_calls c <= media_calls c0 + 4 /\
    (forall n st hs d,
       media w videoUrl n = Http.Responded st hs d ->
       ~ (100 <= st <= 199 \/ st = 429 \/ 500 <= st <= 599)%Z ->
       media_calls c <= media_calls c0 + S n) /\
    (forall msg,
       media w videoUrl 0 = Http.NoResponse msg ->
       media_calls c0 + 2 <= media_calls c) /\
    (forall st hs d,
       media w videoUrl 0 = Http.Responded st hs d ->
       (100 <= st <= 199 \/ st = 429 \/ 500 <= st <= 599)%Z ->
       Http.names_retry_after hs = false ->
       media_calls c0 + 2 <= media_calls c).
Proof.
  destruct (HttpFacts.axios_get_total Http.validateStatus_default None
              (media w videoUrl) (media_retries w videoUrl))
    as (r & k & E & Hk).
  rewrite (FetcherFacts.fetchVideo_run w videoUrl c0 E).
  eexists _, _. split; [reflexivity|]. simpl in Hk |- *.
  split; [reflexivity|]. split; [lia|].
  unfold Http.axios_get in E. split; [|split].
  - intros n st hs d Hn Hout.
    assert (k <= S n); [|lia].
    eapply HttpFacts.request_stops;
      [exact Hn | apply FetcherFacts.out_of_ranges_default; exact Hout
       | apply Nat.le_0_l | exact E].
  - intros msg H0.
    assert (2 <= k); [|lia].
    eapply HttpFacts.request_second; [rewrite H0; reflexivity | | exact E].
    apply HttpFacts.retries_first; [reflexivity | simpl; lia | exact I].
  - intros st hs d H0 Hin Hra.
    assert (2 <= k); [|lia].
    eapply HttpFacts.request_second;
      [rewrite H0; apply FetcherFacts.settle_not_2xx; lia | | exact E].
    apply HttpFacts.retries_first; [reflexivity | simpl; lia |].
    cbn [Http.err_response Http.resp_status Http.resp_headers].
    split; [now apply HttpFacts.in_ranges_default | exact Hra].
Qed.

(** C5, refuted as stated: a media host that answers 503 once and then
    the video receives two GETs for one media fetch. *)
Lemma fetchVideo_retries_503 :
  fetchVideo Scenario.w_media_503_once (VStr "https://x/video.mp4") (mkCalls 0 0)
  = Some (inr (mkVideoResponse Scenario.clip
                 [("content-type", "video/mp4"); ("content-length", "4")]),
          mkCalls 0 2) /\
  media_calls (mkCalls 0 2) <> 1.
Proof.
  split; [reflexivity | discriminate].
Qed.

(** A media host that answers 503 once, without [Retry-After]. *)
Lemma fetchVideo_requests_witness :
  exists r c,
    fetchVideo Scenario.w_media_503_once (VStr "https://x/video.mp4") (mkCalls 0 0)
    = Some (r, c) /\
    0 + 2 <= media_calls c.
Proof.
  destruct (fetchVideo_requests Scenario.w_media_503_once (VStr "https://x/video.mp4")
              (mkCalls 0 0))
    as (r & c & E & _ & _ & _ & _ & Hsecond).
  exists r, c. split; [exact E|].
  apply (Hsecond 503%Z [] []); [reflexivity | lia | reflexivity].
Defined.

(** ** The route handler *)

Module HandlerFacts.

(** A string the validator accepts is not empty, hence truthy. *)
Lemma valid_truthy (u : string) :
  validateInstagramUrl u = true -> truthy (VStr u) = true.
Proof. destruct u; [discriminate | reflexivity]. Qed.

(** Setting a header to a string free of forbidden characters goes
    through. *)
Lemma setHeader_safe name s res :
  header_safe s = true ->
  setHeader name (VStr s) res =
  inr (mkRes (res_status res)
         (filter (fun h => negb (fst h =? name)) (res_headers res) ++ [(name, VStr s)])
         (res_body res)).
Proof. intros H. unfold setHeader, ToString. simpl. now rewrite H. Qed.

Lemma header_safe_app a b :
  header_safe (a ++ b) = header_safe a && header_safe b.
Proof. apply StrFacts.forallb_app. Qed.

(** A resolution that fails ends the [try] block with [res] untouched. *)
Lemma download_try_failed w (u : string) e c :
  validateInstagramUrl u = true ->
  fetchVideoInfo w u (mkCalls 0 0) = Some (inl e, c) ->
  download_try w (VStr u) (mkCalls 0 0) = Some (inl (e, res0), c).
Proof.
  intros Hv Hf. unfold download_try. rewrite (valid_truthy u Hv).
  cbn [negb]. unfold bind at 1. unfold on at 1, lift at 1, ToString.
  cbn [convertible toString]. rewrite Hv. cbn [negb].
  unfold bind at 1, on at 1. rewrite Hf. reflexivity.
Qed.

(** Once the resolver has returned, the handler goes on with its payload. *)
Lemma download_try_resolved w (u : string) (videoInfo : value) c1 :
  validateInstagramUrl u = true ->
  fetchVideoInfo w u (mkCalls 0 0) = Some (inr videoInfo, c1) ->
  download_try w (VStr u) (mkCalls 0 0) =
  (vstatus <- on res0 (lift (get videoInfo "status")) ;;
   vdata <- on res0 (lift (get videoInfo "data")) ;;
   if strict_eq (VBool (negb (truthy vstatus))) (VStr "success")
      || negb (truthy (get_opt vdata "videoUrl"))
   then ret (json (VObj [("error", VStr "Failed to get video URL from API")])
               (status 400 res0))
   else
     videoUrl <- on res0 (lift (get vdata "videoUrl")) ;;
     videoResponse <- on res0 (fetchVideo w videoUrl) ;;
     let contentType := lookup "content-type" (vr_headers videoResponse) in
     if negb (match contentType with
              | Some ct => Str.includes "video" ct
              | None => false
              end)
     then ret (json (VObj [("error", VStr "Invalid video content type")])
                 (status 400 res0))
     else
       res1 <- on res0 (lift (setHeader "Content-Type" (header_value contentType) res0)) ;;
       res2 <- on res1 (lift (setHeader "Content-Length"
                                (header_value (lookup "content-length"
                                                 (vr_headers videoResponse))) res1)) ;;
       filename <- on res2 (lift (get vdata "filename")) ;;
       name <- on res2 (lift (ToString filename)) ;;
       res3 <- on res2 (lift (setHeader "Content-Disposition"
                                (VStr ("attachment; filename=" ++ name)) res2)) ;;
       res4 <- on res3 (lift (setHeader "Accept-Ranges" (VStr "bytes") res3)) ;;
       res5 <- on res4 (lift (setHeader "Cache-Control"
                                (VStr "public, max-age=3600") res4)) ;;
       ret (send (vr_data videoResponse) res5)) c1.
Proof.
  intros Hv Hf. unfold download_try. rewrite (valid_truthy u Hv).
  cbn [negb]. unfold bind at 1. unfold on at 1, lift at 1, ToString.
  cbn [convertible toString]. rewrite Hv. cbn [negb].
  unfold bind at 1, on at 1. rewrite Hf. reflexivity.
Qed.

(** [strict_eq] of a boolean and a string: the first disjunct of the
    validity check never holds. *)
Lemma status_test_false (vstatus : value) :
  strict_eq (VBool (negb (truthy vstatus))) (VStr "success") = false.
Proof. reflexivity. Qed.

(** With an object payload whose [data] holds a truthy [videoUrl], the
    handler goes on to the media fetch. *)
Lemma download_try_fetching w (u : string) fields dfields (videoUrl : value) c1 :
  validateInstagramUrl u = true ->
  fetchVideoInfo w u (mkCalls 0 0) = Some (inr (VObj fields), c1) ->
  lookup "data" fields = Some (VObj dfields) ->
  lookup "videoUrl" dfields = Some videoUrl ->
  truthy videoUrl = true ->
  download_try w (VStr u) (mkCalls 0 0) =
  (videoResponse <- on res0 (fetchVideo w videoUrl) ;;
   let contentType := lookup "content-type" (vr_headers videoResponse) in
   if negb (match contentType with
            | Some ct => Str.includes "video" ct
            | None => false
            end)
   then ret (json (VObj [("error", VStr "Invalid video content type")])
               (status 400 res0))
   else
     res1 <- on res0 (lift (setHeader "Content-Type" (header_value contentType) res0)) ;;
     res2 <- on res1 (lift (setHeader "Content-Length"
                              (header_value (lookup "content-length"
                                               (vr_headers videoResponse))) res1)) ;;
     filename <- on res2 (lift (get (VObj dfields) "filename")) ;;
     name <- on res2 (lift (ToString filename)) ;;
     res3 <- on res2 (lift (setHeader "Content-Disposition"
                              (VStr ("attachment; filename=" ++ name)) res2)) ;;
     res4 <- on res3 (lift (setHeader "Accept-Ranges" (VStr "bytes") res3)) ;;
     res5 <- on res4 (lift (setHeader "Cache-Control"
                              (VStr "public, max-age=3600") res4)) ;;
     ret (send (vr_data videoResponse) res5)) c1.
Proof.
  intros Hv Hf Hd Hu Ht.
  rewrite (@download_try_resolved w u (VObj fields) c1 Hv Hf).
  unfold bind at 1, on at 1, lift at 1. cbn [get].
  unfold bind at 1, on at 1, lift at 1. cbn [get]. rewrite Hd.
  rewrite status_test_false. unfold get_opt. cbn [get]. rewrite Hu, Ht.
  cbn [negb orb].
  unfold bind at 1, on at 1, lift at 1. reflexivity.
Qed.

(** The five headers on an untouched response, when content type, content
    length and file name are fit for a header. *)
Lemma download_try_assembled w (u : string) fields dfields (videoUrl : value)
    (bytes : list Byte.byte) (hs : list (string * string)) (ct cl : string)
    (filename : value) (name : string) c1 c2 :
  validateInstagramUrl u = true ->
  fetchVideoInfo w u (mkCalls 0 0) = Some (inr (VObj fields), c1) ->
  lookup "data" fields = Some (VObj dfields) ->
  lookup "videoUrl" dfields = Some videoUrl ->
  truthy videoUrl = true ->
  fetchVideo w videoUrl c1 = Some (inr (mkVideoResponse bytes hs), c2) ->
  lookup "content-type" hs = Some ct ->
  Str.includes "video" ct = true ->
  header_safe ct = true ->
  lookup "content-length" hs = Some cl ->
  header_safe cl = true ->
  get (VObj dfields) "filename" = inr filename ->
  ToString filename = inr name ->
  header_safe name = true ->
  download_try w (VStr u) (mkCalls 0 0) =
  Some (inr (mkRes 200
               [("Content-Type", VStr ct);
                ("Content-Length", VStr cl);
                ("Content-Disposition", VStr ("attachment; filename=" ++ name));
                ("Accept-Ranges", VStr "bytes");
                ("Cache-Control", VStr "public, max-age=3600")]
               (Bytes bytes)),
        c2).
Proof.
  intros Hv Hf Hd Hu Ht Hm Hct Hvid Hsct Hcl Hscl Hfn Hts Hsn.
  rewrite (@download_try_fetching w u fields dfields videoUrl c1 Hv Hf Hd Hu Ht).
  unfold bind at 1, on at 1. rewrite Hm. cbn [vr_headers vr_data].
  rewrite Hct, Hvid, Hcl. cbn [negb header_value].
  rewrite (setHeader_safe "Content-Type" ct res0 Hsct).
  unfold bind at 1, on at 1, lift at 1.
  rewrite (setHeader_safe "Content-Length" cl _ Hscl).
  unfold bind at 1, on at 1, lift at 1. rewrite Hfn.
  unfold bind at 1, on at 1, lift at 1.
  unfold bind at 1, on at 1, lift at 1. rewrite Hts.
  assert (Hd3 : header_safe ("attachment; filename=" ++ name) = true).
  { rewrite header_safe_app, Hsn. reflexivity. }
  rewrite (setHeader_safe "Content-Disposition" _ _ Hd3).
  unfold bind at 1, on at 1, lift at 1.
  reflexivity.
Qed.

End HandlerFacts.

(** Every way through the [try] block. *)
Module HandlerCases.

Lemma setHeader_inr name v res res' :
  setHeader name v res = inr res' ->
  res' = mkRes (res_status res)
           (filter (fun h => negb (fst h =? name)) (res_headers res) ++ [(name, v)])
           (res_body res).
Proof.
  unfold setHeader. intros H.
  destruct v; try discriminate;
    (destruct (ToString _) as [e | str]; [discriminate|];
     destruct (header_safe str); [now injection H as <- | discriminate]).
Qed.

Lemma setHeader_header_value name h res res' :
  setHeader name (header_value h) res = inr res' -> exists s, h = Some s.
Proof.
  destruct h as [s|]; [eauto | discriminate].
Qed.

(** Where the [try] block ends, what it has built by then and how many
    GETs it has caused. *)
Lemma download_try_cases w url :
  exists r c,
    download_try w url (mkCalls 0 0) = Some (r, c) /\
    api_calls c <= 4 /\ media_calls c <= 4 /\
    (0 < media_calls c -> 1 <= api_calls c) /\
    (0 < api_calls c -> truthy url = true /\ validateInstagramUrl (toString url) = true) /\
    match r with
    | inl (_, res) =>
        res = res0 \/
        (1 <= media_calls c /\
         exists ct, Str.includes "video" ct = true /\
           (res = mkRes 200 [("Content-Type", VStr ct)] NoBody \/
            exists cl,
              res = mkRes 200 [("Content-Type", VStr ct); ("Content-Length", VStr cl)]
                      NoBody))
    | inr res =>
        (exists m,
           res = mkRes 400 [] (Json (VObj [("error", VStr m)])) /\
           (m = "URL parameter is required" \/
            m = "Invalid Instagram reel URL format" \/
            m = "Failed to get video URL from API" \/
            m = "Invalid video content type")) \/
        (exists ct cl fn b,
           res = mkRes 200
                   [("Content-Type", VStr ct);
                    ("Content-Length", VStr cl);
                    ("Content-Disposition", VStr ("attachment; filename=" ++ fn));
                    ("Accept-Ranges", VStr "bytes");
                    ("Cache-Control", VStr "public, max-age=3600")]
                   (Bytes b) /\
           Str.includes "video" ct = true /\ 1 <= media_calls c)
    end.
Proof.
  unfold download_try.
  destruct (truthy url) eqn:Ht; cbn [negb].
  2:{ eexists _, _. split; [reflexivity|]. simpl.
      repeat (split; [lia|]). left. eexists. split; [reflexivity | auto]. }
  unfold bind at 1, on at 1, lift at 1. unfold ToString at 1.
  destruct (convertible url).
  2:{ eexists _, _. split; [reflexivity|]. simpl.
      repeat (split; [lia|]). now left. }
  destruct (validateInstagramUrl (toString url)) eqn:Hv; cbn [negb].
  2:{ eexists _, _. split; [reflexivity|]. simpl.
      repeat (split; [lia|]). left. eexists. split; [reflexivity | auto]. }
  unfold bind at 1, on at 1.
  destruct (ResolverFacts.fetchVideoInfo_total w (toString url) (mkCalls 0 0))
    as (r & c1 & E & Hb & Hm).
  rewrite E. simpl in Hb, Hm.
  assert (Hgate : 0 < api_calls c1 -> true = true /\ true = true)
    by (intros _; split; reflexivity).
  destruct r as [e | videoInfo].
  { eexists _, _. split; [reflexivity|]. repeat (split; [lia || exact Hgate|]). now left. }
  unfold bind at 1, on at 1, lift at 1.
  destruct (get videoInfo "status") as [e | vstatus].
  { eexists _, _. split; [reflexivity|]. repeat (split; [lia || exact Hgate|]). now left. }
  unfold bind at 1, on at 1, lift at 1.
  destruct (get videoInfo "data") as [e | vdata].
  { eexists _, _. split; [reflexivity|]. repeat (split; [lia || exact Hgate|]). now left. }
  destruct (strict_eq (VBool (negb (truthy vstatus))) (VStr "success")
            || negb (truthy (get_opt vdata "videoUrl"))).
  { eexists _, _. split; [reflexivity|]. repeat (split; [lia || exact Hgate|]).
    left. eexists. split; [reflexivity | auto]. }
  unfold bind at 1, on at 1, lift at 1.
  destruct (get vdata "videoUrl") as [e | videoUrl].
  { eexists _, _. split; [reflexivity|]. repeat (split; [lia || exact Hgate|]). now left. }
  unfold bind at 1, on at 1.
  destruct (FetcherFacts.fetchVideo_total w videoUrl c1) as (r & c2 & E2 & Ha2 & Hm2).
  rewrite E2.
  assert (Hgate2 : 0 < api_calls c2 -> true = true /\ true = true)
    by (intros _; split; reflexivity).
  destruct r as [e | videoResponse].
  { eexists _, _. split; [reflexivity|]. repeat (split; [lia || exact Hgate2|]). now left. }
  cbv zeta.
  destruct (lookup "content-type" (vr_headers videoResponse)) as [ct|] eqn:Ect.
  2:{ cbn [negb].
      eexists _, _. split; [reflexivity|]. repeat (split; [lia || exact Hgate2|]).
      left. eexists. split; [reflexivity | auto]. }
  destruct (Str.includes "video" ct) eqn:Evid; cbn [negb].
  2:{ eexists _, _. split; [reflexivity|]. repeat (split; [lia || exact Hgate2|]).
      left. eexists. split; [reflexivity | auto]. }
  unfold bind at 1, on at 1, lift at 1.
  destruct (setHeader "Content-Type" (header_value (Some ct)) res0) as [e | res1] eqn:E1.
  { eexists _, _. split; [reflexivity|]. repeat (split; [lia || exact Hgate2|]). now left. }
  apply setHeader_inr in E1. simpl in E1. subst res1.
  unfold bind at 1, on at 1, lift at 1.
  destruct (setHeader "Content-Length"
              (header_value (lookup "content-length" (vr_headers videoResponse))) _)
    as [e | res2] eqn:E2'.
  { eexists _, _. split; [reflexivity|]. repeat (split; [lia || exact Hgate2|]).
    right. split; [lia|]. exists ct. split; [exact Evid | now left]. }
  destruct (setHeader_header_value _ _ _ E2') as (cl & Ecl).
  rewrite Ecl in E2'. apply setHeader_inr in E2'. simpl in E2'. subst res2.
  unfold bind at 1, on at 1, lift at 1.
  destruct (get vdata "filename") as [e | filename].
  { eexists _, _. split; [reflexivity|]. repeat (split; [lia || exact Hgate2|]).
    right. split; [lia|]. exists ct. split; [exact Evid|]. right. now exists cl. }
  unfold bind at 1, on at 1, lift at 1.
  destruct (ToString filename) as [e | name].
  { eexists _, _. split; [reflexivity|]. repeat (split; [lia || exact Hgate2|]).
    right. split; [lia|]. exists ct. split; [exact Evid|]. right. now exists cl. }
  unfold bind at 1, on at 1, lift at 1.
  destruct (setHeader "Content-Disposition" (VStr ("attachment; filename=" ++ name)) _)
    as [e | res3] eqn:E3.
  { eexists _, _. split; [reflexivity|]. repeat (split; [lia || exact Hgate2|]).
    right. split; [lia|]. exists ct. split; [exact Evid|]. right. now exists cl. }
  apply setHeader_inr in E3. simpl in E3. subst res3.
  unfold bind at 1, on at 1, lift at 1.
  rewrite (HandlerFacts.setHeader_safe "Accept-Ranges" "bytes" _ eq_refl).
  unfold bind at 1, on at 1, lift at 1.
  rewrite (HandlerFacts.setHeader_safe "Cache-Control" "public, max-age=3600" _ eq_refl).
  eexists _, _. split; [reflexivity|]. repeat (split; [lia || exact Hgate2|]).
  right. exists ct, cl, name, (vr_data videoResponse).
  split; [reflexivity|]. split; [exact Evid | lia].
Qed.

End HandlerCases.

(** The handler on the requests the specification lists as test cases. *)
Module Checks.

Example missing_url :
  download None (Scenario.w_ok (VStr "success")) VUndefined =
  Some (mkServed (mkRes 400 [] (Json (VObj [("error", VStr "URL parameter is required")])))
                 (mkCalls 0 0)).
Proof. reflexivity. Qed.

Example not_a_reel :
  download None (Scenario.w_ok (VStr "success"))
    (VStr "https://www.instagram.com/not-a-reel/x") =
  Some (mkServed
          (mkRes 400 [] (Json (VObj [("error", VStr "Invalid Instagram reel URL format")])))
          (mkCalls 0 0)).
Proof. reflexivity. Qed.

Example text_plain_media :
  download None Scenario.w_text_plain (VStr Scenario.testUrl) =
  Some (mkServed
          (mkRes 400 [] (Json (VObj [("error", VStr "Invalid video content type")])))
          (mkCalls 1 1)).
Proof. reflexivity. Qed.

Example two_500_then_video :
  option_map calls (download None (Scenario.w_500_first 2) (VStr Scenario.testUrl)) =
  Some (mkCalls 3 1).
Proof. reflexivity. Qed.

(** A [url] parameter that cannot be turned into a string makes the
    pattern test throw. *)
Example unconvertible_url :
  download None (Scenario.w_ok (VStr "success")) (VObj [("toString", VStr "x")]) =
  Some (mkServed
          (mkRes 500 []
             (Json (VObj [("error", VStr "Internal server error");
                          ("message", VStr "Failed to process video download")])))
          (mkCalls 0 0)).
Proof. reflexivity. Qed.

(** A file name with a line feed is refused as a header value after two
    headers have been set. *)
Example name_with_newline :
  download None Upstreams.w_name_with_newline (VStr Scenario.testUrl) =
  Some (mkServed
          (mkRes 500
             [("Content-Type", VStr "video/mp4"); ("Content-Length", VStr "4")]
             (Json (VObj [("error", VStr "Internal server error");
                          ("message", VStr "Failed to process video download")])))
          (mkCalls 1 1)).
Proof. reflexivity. Qed.

End Checks.

(** C1, as the code has it: an error thrown by [fetchVideoInfo] is caught
    by the route's [catch] block, so for a valid reel URL a failed
    resolution is answered with status 500 and the body
    [{error: 'Internal server error', message}], and no media fetch is
    made. *)
Theorem download_resolution_failure (NODE_ENV : option string) (w : World)
    (u : string) (e : Error) (c : Calls) :
  validateInstagramUrl u = true ->
  fetchVideoInfo w u (mkCalls 0 0) = Some (inl e, c) ->
  download NODE_ENV w (VStr u) =
  Some (mkServed
          (mkRes 500 []
             (Json (VObj [("error", VStr "Internal server error");
                          ("message",
                           VStr (if development NODE_ENV then message e
                                 else "Failed to process video download"))])))
          c)
  /\ media_calls c = 0.
Proof.
  intros Hv Hf. split.
  - unfold download. rewrite (@HandlerFacts.download_try_failed w u e c Hv Hf).
    reflexivity.
  - destruct (ResolverFacts.fetchVideoInfo_total w u (mkCalls 0 0)) as (r & c' & E & _ & Hm).
    rewrite Hf in E. injection E as _ <-. exact Hm.
Qed.

(** An HTML answer from the resolver endpoint, outside development. *)
Lemma download_resolution_failure_witness :
  download (Some "production") Scenario.w_html (VStr Scenario.testUrl) =
  Some (mkServed
          (mkRes 500 []
             (Json (VObj [("error", VStr "Internal server error");
                          ("message", VStr "Failed to process video download")])))
          (mkCalls 1 0))
  /\ media_calls (mkCalls 1 0) = 0.
Proof.
  apply (@download_resolution_failure (Some "production") Scenario.w_html Scenario.testUrl
           (mkError "Failed to fetch video info: API returned HTML instead of JSON")
           (mkCalls 1 0)); reflexivity.
Defined.

(** C1, refuted as stated: the URL is valid and the resolver fails on an
    HTML content type, and the answer is 500, not 400. *)
Lemma html_resolution_answers_500 :
  validateInstagramUrl Scenario.testUrl = true /\
  fetchVideoInfo Scenario.w_html Scenario.testUrl (mkCalls 0 0)
  = Some (inl (mkError "Failed to fetch video info: API returned HTML instead of JSON"),
          mkCalls 1 0) /\
  exists s,
    download None Scenario.w_html (VStr Scenario.testUrl) = Some s /\
    res_status (response s) = 500%Z /\ res_status (response s) <> 400%Z.
Proof.
  split; [reflexivity|]. split; [reflexivity|].
  eexists. split; [reflexivity|]. simpl. split; [reflexivity | discriminate].
Qed.

(** C2, the code at the failing input: whatever the resolver puts in
    [status] (for instance ["error"]), a payload with a video URL is taken
    as valid; the media fetch is made and the video is served with 200. *)
Theorem download_ignores_status (st : value) :
  download None (Scenario.w_ok st) (VStr Scenario.testUrl) =
  Some (mkServed
          (mkRes 200
             [("Content-Type", VStr "video/mp4");
              ("Content-Length", VStr "4");
              ("Content-Disposition", VStr "attachment; filename=v.mp4");
              ("Accept-Ranges", VStr "bytes");
              ("Cache-Control", VStr "public, max-age=3600")]
             (Bytes Scenario.clip))
          (mkCalls 1 1)).
Proof. reflexivity. Qed.

(** C7, as the code has it: a valid reel URL, a resolver result
    [{status: "success", data: {videoUrl, filename}}] with a non-empty
    [videoUrl], and a media fetch that returns bytes under a content type
    containing ["video"] and with a content length, where content type,
    content length and file name hold no character a header value may not
    hold, are answered with 200, the fetched bytes as body, Content-Type
    and Content-Length as the fetch has them, and the three fixed
    headers. *)
Theorem download_success (NODE_ENV : option string) (w : World) (u : string)
    (fields dfields : list (string * value)) (videoUrl filename : string)
    (bytes : list Byte.byte) (hs : list (string * string)) (ct cl : string)
    (c1 c2 : Calls) :
  validateInstagramUrl u = true ->
  fetchVideoInfo w u (mkCalls 0 0) = Some (inr (VObj fields), c1) ->
  lookup "status" fields = Some (VStr "success") ->
  lookup "data" fields = Some (VObj dfields) ->
  lookup "videoUrl" dfields = Some (VStr videoUrl) ->
  videoUrl <> "" ->
  lookup "filename" dfields = Some (VStr filename) ->
  header_safe filename = true ->
  fetchVideo w (VStr videoUrl) c1 = Some (inr (mkVideoResponse bytes hs), c2) ->
  lookup "content-type" hs = Some ct ->
  Str.includes "video" ct = true ->
  header_safe ct = true ->
  lookup "content-length" hs = Some cl ->
  header_safe cl = true ->
  download NODE_ENV w (VStr u) =
  Some (mkServed
          (mkRes 200
             [("Content-Type", VStr ct);
              ("Content-Length", VStr cl);
              ("Content-Disposition", VStr ("attachment; filename=" ++ filename));
              ("Accept-Ranges", VStr "bytes");
              ("Cache-Control", VStr "public, max-age=3600")]
             (Bytes bytes))
          c2).
Proof.
  intros Hv Hf Hst Hd Hu Hne Hn Hsn Hm Hct Hvid Hsct Hcl Hscl.
  unfold download.
  rewrite (@HandlerFacts.download_try_assembled w u fields dfields (VStr videoUrl)
             bytes hs ct cl (VStr filename) filename c1 c2);
    try assumption; try reflexivity.
  - simpl. apply String.eqb_neq in Hne. now rewrite Hne.
  - simpl. now rewrite Hn.
Qed.

(** The success scenario of the specification. *)
Lemma download_success_witness :
  download None (Scenario.w_ok (VStr "success")) (VStr Scenario.testUrl) =
  Some (mkServed
          (mkRes 200
             [("Content-Type", VStr "video/mp4");
              ("Content-Length", VStr "4");
              ("Content-Disposition", VStr "attachment; filename=v.mp4");
              ("Accept-Ranges", VStr "bytes");
              ("Cache-Control", VStr "public, max-age=3600")]
             (Bytes Scenario.clip))
          (mkCalls 1 1)).
Proof.
  apply (@download_success None (Scenario.w_ok (VStr "success")) Scenario.testUrl
           [("status", VStr "success");
            ("data", VObj [("videoUrl", VStr "https://x/video.mp4");
                           ("filename", VStr "v.mp4")])]
           [("videoUrl", VStr "https://x/video.mp4"); ("filename", VStr "v.mp4")]
           "https://x/video.mp4" "v.mp4" Scenario.clip
           [("content-type", "video/mp4"); ("content-length", "4")] "video/mp4" "4"
           (mkCalls 1 0) (mkCalls 1 1));
    try reflexivity.
  discriminate.
Defined.

(** C7, refuted as stated: the URL is valid, the resolver succeeds and the
    media fetch returns the bytes under [video/mp4], but without a content
    length; [setHeader] throws on the [undefined] value and the answer is
    the 500 of the [catch] block, with the content type already set. *)
Lemma download_without_content_length :
  validateInstagramUrl Scenario.testUrl = true /\
  fetchVideoInfo Upstreams.w_media_unsized Scenario.testUrl (mkCalls 0 0)
  = Some (inr (Scenario.info (VStr "success")), mkCalls 1 0) /\
  fetchVideo Upstreams.w_media_unsized (VStr "https://x/video.mp4") (mkCalls 1 0)
  = Some (inr (mkVideoResponse Scenario.clip [("content-type", "video/mp4")]),
          mkCalls 1 1) /\
  download None Upstreams.w_media_unsized (VStr Scenario.testUrl) =
  Some (mkServed
          (mkRes 500 [("Content-Type", VStr "video/mp4")]
             (Json (VObj [("error", VStr "Internal server error");
                          ("message", VStr "Failed to process video download")])))
          (mkCalls 1 1)).
Proof. repeat split. Qed.

(** C8: outside development nothing of the internal error reaches the 500
    body.  For any two errors the route's [catch] block builds the same
    response, whose message is the fixed generic string, and so does the
    error middleware; this holds as well when the [try] block has set
    headers on the response before the error. *)
Theorem generic_500_body (NODE_ENV : option string) (e1 e2 : Error) :
  NODE_ENV <> Some "development" ->
  download_catch NODE_ENV e1 = download_catch NODE_ENV e2 /\
  error_middleware NODE_ENV e1 = error_middleware NODE_ENV e2 /\
  download_catch NODE_ENV e1 =
  mkRes 500 []
    (Json (VObj [("error", VStr "Internal server error");
                 ("message", VStr "Failed to process video download")])) /\
  forall res,
    download_catch_on res NODE_ENV e1 = download_catch_on res NODE_ENV e2 /\
    download_catch_on res NODE_ENV e1 =
    mkRes 500 (res_headers res)
      (Json (VObj [("error", VStr "Internal server error");
                   ("message", VStr "Failed to process video download")])).
Proof.
  intros Hne.
  assert (Hd : development NODE_ENV = false).
  { destruct NODE_ENV as [env|]; [|reflexivity]. simpl.
    apply String.eqb_neq. intros ->. now apply Hne. }
  unfold download_catch, download_catch_on, error_middleware. rewrite Hd.
  repeat split.
Qed.

(** Two different internal errors in production. *)
Lemma generic_500_body_witness :
  download_catch (Some "production") (mkError "connect ECONNREFUSED 10.0.0.7:443")
  = download_catch (Some "production") (mkError "Failed to fetch video: timeout of 30000ms exceeded") /\
  error_middleware (Some "production") (mkError "connect ECONNREFUSED 10.0.0.7:443")
  = error_middleware (Some "production") (mkError "Failed to fetch video: timeout of 30000ms exceeded") /\
  download_catch (Some "production") (mkError "connect ECONNREFUSED 10.0.0.7:443") =
  mkRes 500 []
    (Json (VObj [("error", VStr "Internal server error");
                 ("message", VStr "Failed to process video download")])) /\
  forall res,
    download_catch_on res (Some "production") (mkError "connect ECONNREFUSED 10.0.0.7:443")
    = download_catch_on res (Some "production")
        (mkError "Failed to fetch video: timeout of 30000ms exceeded") /\
    download_catch_on res (Some "production") (mkError "connect ECONNREFUSED 10.0.0.7:443") =
    mkRes 500 (res_headers res)
      (Json (VObj [("error", VStr "Internal server error");
                   ("message", VStr "Failed to process video download")])).
Proof.
  apply (@generic_500_body (Some "production")
           (mkError "connect ECONNREFUSED 10.0.0.7:443")
           (mkError "Failed to fetch video: timeout of 30000ms exceeded")).
  discriminate.
Defined.

(** C9: an empty [url] parameter is falsy, so it is answered like a missing
    one, with 400 and "URL parameter is required", before any upstream
    call. *)
Theorem empty_url_is_missing (NODE_ENV : option string) (w : World) :
  download NODE_ENV w (VStr "") =
  Some (mkServed
          (mkRes 400 [] (Json (VObj [("error", VStr "URL parameter is required")])))
          (mkCalls 0 0)) /\
  download NODE_ENV w (VStr "") = download NODE_ENV w VUndefined.
Proof. split; reflexivity. Qed.

(** C10: the validity check reads [data.videoUrl] only.  With a truthy
    [videoUrl] and no [filename] the handler goes on to the media fetch,
    and a fetched video (content type and content length present and fit
    for a header) is served with
    [Content-Disposition: attachment; filename=undefined]. *)
Theorem download_without_filename (NODE_ENV : option string) (w : World) (u : string)
    (fields dfields : list (string * value)) (videoUrl : value)
    (bytes : list Byte.byte) (hs : list (string * string)) (ct cl : string)
    (c1 c2 : Calls) :
  validateInstagramUrl u = true ->
  fetchVideoInfo w u (mkCalls 0 0) = Some (inr (VObj fields), c1) ->
  lookup "data" fields = Some (VObj dfields) ->
  lookup "videoUrl" dfields = Some videoUrl ->
  truthy videoUrl = true ->
  lookup "filename" dfields = None ->
  fetchVideo w videoUrl c1 = Some (inr (mkVideoResponse bytes hs), c2) ->
  lookup "content-type" hs = Some ct ->
  Str.includes "video" ct = true ->
  header_safe ct = true ->
  lookup "content-length" hs = Some cl ->
  header_safe cl = true ->
  download NODE_ENV w (VStr u) =
  Some (mkServed
          (mkRes 200
             [("Content-Type", VStr ct);
              ("Content-Length", VStr cl);
              ("Content-Disposition", VStr "attachment; filename=undefined");
              ("Accept-Ranges", VStr "bytes");
              ("Cache-Control", VStr "public, max-age=3600")]
             (Bytes bytes))
          c2).
Proof.
  intros Hv Hf Hd Hu Ht Hn Hm Hct Hvid Hsct Hcl Hscl.
  unfold download.
  rewrite (@HandlerFacts.download_try_assembled w u fields dfields videoUrl
             bytes hs ct cl VUndefined "undefined" c1 c2);
    try assumption; try reflexivity.
  simpl. now rewrite Hn.
Qed.

(** A resolver payload without a filename. *)
Lemma download_without_filename_witness :
  download None Scenario.w_nameless (VStr Scenario.testUrl) =
  Some (mkServed
          (mkRes 200
             [("Content-Type", VStr "video/mp4");
              ("Content-Length", VStr "4");
              ("Content-Disposition", VStr "attachment; filename=undefined");
              ("Accept-Ranges", VStr "bytes");
              ("Cache-Control", VStr "public, max-age=3600")]
             (Bytes Scenario.clip))
          (mkCalls 1 1)).
Proof.
  apply (@download_without_filename None Scenario.w_nameless Scenario.testUrl
           [("status", VStr "success");
            ("data", VObj [("videoUrl", VStr "https://x/video.mp4")])]
           [("videoUrl", VStr "https://x/video.mp4")]
           (VStr "https://x/video.mp4") Scenario.clip
           [("content-type", "video/mp4"); ("content-length", "4")] "video/mp4" "4"
           (mkCalls 1 0) (mkCalls 1 1));
    reflexivity.
Defined.

(** * Further properties of the resolver and the fetcher *)

Module ClientSteps.

Import Http HttpFacts.

(** A value that is truthy and of type object has every property readable. *)
Lemma get_object v :
  truthy v = true -> typeof v = "object" -> forall k, exists x, get v k = inr x.
Proof.
  intros Ht Hty k. destruct v; simpl in *; try discriminate; eauto.
Qed.

(** Against an endpoint that never responds the loop ends on the message
    of its last GET. *)
Lemma request_silent validateStatus (upstream : nat -> outcome value) library msg :
  (forall n, upstream n = NoResponse (msg n)) ->
  forall fuel cfg calls r k,
    request fuel validateStatus upstream library cfg calls = Some (r, k) ->
    r = inl (mkAxiosError (msg (k - 1)) None).
Proof.
  intros H. induction fuel as [|fuel IH]; intros cfg calls r k E; [discriminate|].
  simpl in E. rewrite H in E. simpl in E.
  destruct (retries (library calls) cfg (mkAxiosError (msg calls) None)).
  - eapply IH. exact E.
  - injection E as <- <-. simpl. now rewrite Nat.sub_0_r.
Qed.

End ClientSteps.

Module ResolverPost.

(** The shape check of server.js:51 is the resolver's postcondition. *)
Lemma resolved_is_object w url c c' v :
  fetchVideoInfo w url c = Some (inr v, c') ->
  truthy v = true /\ typeof v = "object".
Proof.
  intros H.
  destruct (HttpFacts.axios_get_total (fun st => (st =? 200)%Z) (Some raxConfig)
              (api w url) (api_retries w url))
    as (r & n & E & _).
  rewrite (ResolverFacts.fetchVideoInfo_run w url c E) in H.
  destruct r as [err | resp]; [discriminate|].
  destruct (match Http.header resp "content-type" with
            | Some ct => negb (ct =? "") && Str.includes "text/html" ct
            | None => false end); [discriminate|].
  destruct (negb (truthy (Http.resp_data resp))
            || negb (typeof (Http.resp_data resp) =? "object")) eqn:Hs; [discriminate|].
  injection H as <- _.
  apply orb_false_iff in Hs as [Ht Hty].
  apply negb_false_iff in Ht, Hty. apply String.eqb_eq in Hty.
  split; [exact Ht | exact Hty].
Qed.

End ResolverPost.

(** X1: whatever [fetchVideoInfo] returns is a non-null object (or array),
    so the handler's reads of [status] and [data] on it cannot throw. *)
Theorem fetchVideoInfo_returns_object (w : World) (url : string) (c c' : Calls) (v : value) :
  fetchVideoInfo w url c = Some (inr v, c') ->
  truthy v = true /\ typeof v = "object" /\ forall k, exists x, get v k = inr x.
Proof.
  intros H. destruct (ResolverPost.resolved_is_object w url c H) as [Ht Hty].
  split; [exact Ht|]. split; [exact Hty|]. now apply ClientSteps.get_object.
Qed.

Lemma fetchVideoInfo_returns_object_witness :
  truthy (Scenario.info (VStr "success")) = true /\
  typeof (Scenario.info (VStr "success")) = "object" /\
  forall k, exists x, get (Scenario.info (VStr "success")) k = inr x.
Proof.
  apply (@fetchVideoInfo_returns_object (Scenario.w_ok (VStr "success")) Scenario.testUrl
           (mkCalls 0 0) (mkCalls 1 0)).
  reflexivity.
Defined.

(** X2: every error that leaves [fetchVideoInfo] is the re-wrapped one; its
    message begins with "Failed to fetch video info: ", so neither the raw
    transport error nor the inner validation error reaches the caller. *)
Theorem fetchVideoInfo_wraps_errors (w : World) (url : string) (c c' : Calls) (e : Error) :
  fetchVideoInfo w url c = Some (inl e, c') ->
  exists m, message e = "Failed to fetch video info: " ++ m.
Proof.
  intros H.
  destruct (HttpFacts.axios_get_total (fun st => (st =? 200)%Z) (Some raxConfig)
              (api w url) (api_retries w url))
    as (r & n & E & _).
  rewrite (ResolverFacts.fetchVideoInfo_run w url c E) in H.
  destruct r as [err | resp].
  - injection H as <- _. eexists. reflexivity.
  - destruct (match Http.header resp "content-type" with
              | Some ct => negb (ct =? "") && Str.includes "text/html" ct
              | None => false end).
    + injection H as <- _. eexists. reflexivity.
    + destruct (negb (truthy (Http.resp_data resp))
                || negb (typeof (Http.resp_data resp) =? "object")).
      * injection H as <- _. eexists. reflexivity.
      * discriminate.
Qed.

Lemma fetchVideoInfo_wraps_errors_witness :
  exists m,
    "Failed to fetch video info: API returned HTML instead of JSON"
    = "Failed to fetch video info: " ++ m.
Proof.
  apply (@fetchVideoInfo_wraps_errors Scenario.w_html Scenario.testUrl
           (mkCalls 0 0) (mkCalls 1 0)
           (mkError "Failed to fetch video info: API returned HTML instead of JSON")).
  reflexivity.
Defined.

(** X3: likewise every error that leaves [fetchVideo] begins with
    "Failed to fetch video: ". *)
Theorem fetchVideo_wraps_errors (w : World) (videoUrl : value) (c c' : Calls) (e : Error) :
  fetchVideo w videoUrl c = Some (inl e, c') ->
  exists m, message e = "Failed to fetch video: " ++ m.
Proof.
  intros H.
  destruct (HttpFacts.axios_get_total Http.validateStatus_default None
              (media w videoUrl) (media_retries w videoUrl))
    as (r & n & E & _).
  rewrite (FetcherFacts.fetchVideo_run w videoUrl c E) in H.
  destruct r as [err | resp]; [|discriminate].
  injection H as <- _. eexists. reflexivity.
Qed.

Lemma fetchVideo_wraps_errors_witness :
  exists m,
    "Failed to fetch video: Request failed with status code 404"
    = "Failed to fetch video: " ++ m.
Proof.
  apply (@fetchVideo_wraps_errors Upstreams.w_media_404 (VStr "https://x/video.mp4")
           (mkCalls 1 0) (mkCalls 1 1)
           (mkError "Failed to fetch video: Request failed with status code 404")).
  reflexivity.
Defined.

(** X4: a 200 from the resolver endpoint is never retried, whatever it
    carries.  After that one GET the resolver fails on an HTML content
    type, fails on a payload that is not an object, and otherwise returns
    the payload. *)
Theorem fetchVideoInfo_on_200 (w : World) (url : string) (c : Calls)
    (hs : list (string * string)) (d : value) :
  api w url 0 = Http.Responded 200 hs d ->
  fetchVideoInfo w url c =
  Some (if match lookup "content-type" hs with
           | Some ct => negb (ct =? "") && Str.includes "text/html" ct
           | None => false
           end
        then inl (mkError "Failed to fetch video info: API returned HTML instead of JSON")
        else if negb (truthy d) || negb (typeof d =? "object")
        then inl (mkError "Failed to fetch video info: Invalid API response format")
        else inr d,
        mkCalls (api_calls c + 1) (media_calls c)).
Proof.
  intros H0.
  rewrite (@ResolverFacts.fetchVideoInfo_run w url c (inr (Http.mkResponse 200 hs d)) 1).
  - reflexivity.
  - apply HttpFacts.axios_get_resolved. rewrite H0. reflexivity.
Qed.

Lemma fetchVideoInfo_on_200_witness :
  fetchVideoInfo Upstreams.w_not_json Scenario.testUrl (mkCalls 0 0) =
  Some (inl (mkError "Failed to fetch video info: Invalid API response format"),
        mkCalls 1 0).
Proof.
  apply (@fetchVideoInfo_on_200 Upstreams.w_not_json Scenario.testUrl (mkCalls 0 0)
           [("content-type", "text/plain")] (VStr "ok")).
  reflexivity.
Defined.

(** X5: the resolver accepts status 200 only.  Any other status outside
    the retried ranges 408..429 and 500..599 (a 201 or a 404, say) ends the
    resolution after one GET with the error
    "Failed to fetch video info: Request failed with status code <status>",
    even when the body is a valid payload. *)
Theorem fetchVideoInfo_rejects_status (w : World) (url : string) (c : Calls)
    (st : Z) (hs : list (string * string)) (d : value) :
  api w url 0 = Http.Responded st hs d ->
  st <> 0%Z -> st <> 200%Z ->
  ~ (408 <= st <= 429 \/ 500 <= st <= 599)%Z ->
  fetchVideoInfo w url c =
  Some (inl (mkError ("Failed to fetch video info: Request failed with status code "
                      ++ string_of_Z st)),
        mkCalls (api_calls c + 1) (media_calls c)).
Proof.
  intros H0 Hz H200 Hr.
  rewrite (@ResolverFacts.fetchVideoInfo_run w url c
             (inl (Http.mkAxiosError ("Request failed with status code " ++ string_of_Z st)
                     (Some (Http.mkResponse st hs d)))) 1).
  - reflexivity.
  - apply HttpFacts.axios_get_rejected.
    + rewrite H0. now apply ResolverFacts.settle_not_200.
    + apply HttpFacts.retries_out_of_range; [exact Hz|].
      now apply ResolverFacts.out_of_ranges_metadata.
Qed.

Lemma fetchVideoInfo_rejects_status_witness :
  fetchVideoInfo Upstreams.w_201 Scenario.testUrl (mkCalls 0 0) =
  Some (inl (mkError "Failed to fetch video info: Request failed with status code 201"),
        mkCalls 1 0).
Proof.
  apply (@fetchVideoInfo_rejects_status Upstreams.w_201 Scenario.testUrl (mkCalls 0 0)
           201 [("content-type", "application/json")] (Scenario.info (VStr "success")));
    try reflexivity; try discriminate; lia.
Defined.

(** X6: a resolver endpoint that never answers (timeouts, refused
    connections) is tried at least twice and at most four times, and the
    resolution then fails with the last failure's message. *)
Theorem fetchVideoInfo_no_response (w : World) (url : string) (c : Calls)
    (msg : nat -> string) :
  (forall n, api w url n = Http.NoResponse (msg n)) ->
  exists k,
    2 <= k <= 4 /\
    fetchVideoInfo w url c =
    Some (inl (mkError ("Failed to fetch video info: " ++ msg (k - 1))),
          mkCalls (api_calls c + k) (media_calls c)).
Proof.
  intros H.
  destruct (HttpFacts.axios_get_total (fun st => (st =? 200)%Z) (Some raxConfig)
              (api w url) (api_retries w url))
    as (r & k & E & Hk).
  rewrite (ResolverFacts.fetchVideoInfo_run w url c E).
  exists k. unfold Http.axios_get in E.
  pose proof (ClientSteps.request_silent _ _ _ msg H _ _ _ E) as ->.
  split; [|reflexivity]. simpl in Hk. split; [|lia].
  eapply HttpFacts.request_second; [rewrite H; reflexivity | | exact E].
  apply HttpFacts.retries_first; [reflexivity | simpl; lia | exact I].
Qed.

Lemma fetchVideoInfo_no_response_witness :
  exists k,
    2 <= k <= 4 /\
    fetchVideoInfo Upstreams.w_silent Scenario.testUrl (mkCalls 0 0) =
    Some (inl (mkError ("Failed to fetch video info: " ++ "timeout of 15000ms exceeded")),
          mkCalls (0 + k) 0).
Proof.
  apply (@fetchVideoInfo_no_response Upstreams.w_silent Scenario.testUrl (mkCalls 0 0)
           (fun _ => "timeout of 15000ms exceeded")).
  reflexivity.
Defined.

(** X7: the media fetch keeps axios' default [validateStatus]: any 2xx
    answer (the 206 a range request gets as well as a 200) is returned
    after one GET, body and headers as received. *)
Theorem fetchVideo_accepts_2xx (w : World) (videoUrl : value) (c : Calls)
    (st : Z) (hs : list (string * string)) (d : list Byte.byte) :
  media w videoUrl 0 = Http.Responded st hs d ->
  (200 <= st < 300)%Z ->
  fetchVideo w videoUrl c =
  Some (inr (mkVideoResponse d hs), mkCalls (api_calls c) (media_calls c + 1)).
Proof.
  intros H0 Hst.
  rewrite (@FetcherFacts.fetchVideo_run w videoUrl c (inr (Http.mkResponse st hs d)) 1).
  - reflexivity.
  - apply HttpFacts.axios_get_resolved. rewrite H0. unfold Http.settle.
    replace (Http.validateStatus_default st) with true.
    + now rewrite orb_true_r.
    + symmetry. unfold Http.validateStatus_default.
      apply andb_true_iff. split; [apply Z.leb_le | apply Z.ltb_lt]; lia.
Qed.

Lemma fetchVideo_accepts_2xx_witness :
  fetchVideo (Scenario.w_ok (VStr "success")) (VStr "https://x/video.mp4") (mkCalls 1 0) =
  Some (inr (mkVideoResponse Scenario.clip
               [("content-type", "video/mp4"); ("content-length", "4")]),
        mkCalls 1 1).
Proof.
  apply (@fetchVideo_accepts_2xx (Scenario.w_ok (VStr "success")) (VStr "https://x/video.mp4")
           (mkCalls 1 0) 206); [reflexivity | lia].
Defined.

(** X8: a media answer with a status that is neither 2xx nor in the
    interceptor's default retry ranges (a 403 or a 404,
    say) makes the fetch fail after one GET with
    "Failed to fetch video: Request failed with status code <status>". *)
Theorem fetchVideo_rejects_status (w : World) (videoUrl : value) (c : Calls)
    (st : Z) (hs : list (string * string)) (d : list Byte.byte) :
  media w videoUrl 0 = Http.Responded st hs d ->
  st <> 0%Z -> ~ (200 <= st < 300)%Z ->
  ~ (100 <= st <= 199 \/ st = 429 \/ 500 <= st <= 599)%Z ->
  fetchVideo w videoUrl c =
  Some (inl (mkError ("Failed to fetch video: Request failed with status code "
                      ++ string_of_Z st)),
        mkCalls (api_calls c) (media_calls c + 1)).
Proof.
  intros H0 Hz H2xx Hr.
  rewrite (@FetcherFacts.fetchVideo_run w videoUrl c
             (inl (Http.mkAxiosError ("Request failed with status code " ++ string_of_Z st)
                     (Some (Http.mkResponse st hs d)))) 1).
  - reflexivity.
  - apply HttpFacts.axios_get_rejected.
    + rewrite H0. now apply FetcherFacts.settle_not_2xx.
    + apply HttpFacts.retries_out_of_range; [exact Hz|].
      now apply FetcherFacts.out_of_ranges_default.
Qed.

Lemma fetchVideo_rejects_status_witness :
  fetchVideo Upstreams.w_media_404 (VStr "https://x/video.mp4") (mkCalls 1 0) =
  Some (inl (mkError "Failed to fetch video: Request failed with status code 404"),
        mkCalls 1 1).
Proof.
  apply (@fetchVideo_rejects_status Upstreams.w_media_404 (VStr "https://x/video.mp4")
           (mkCalls 1 0) 404 [("content-type", "text/html")] []);
    try reflexivity; try discriminate; lia.
Defined.

(** * Further properties of the route handler *)


(** X10: what a request can cost and in which order.  At most four GETs
    go to the resolver and at most four to the media host; the media host
    is contacted only after the resolver; nothing is contacted unless the
    URL parameter is present and passes the validator; and a 200 is only
    ever sent after a media GET. *)
Theorem download_calls_invariant (NODE_ENV : option string) (w : World) (url : value)
    (s : Served) :
  download NODE_ENV w url = Some s ->
  api_calls (calls s) <= 4 /\ media_calls (calls s) <= 4 /\
  (0 < media_calls (calls s) -> 1 <= api_calls (calls s)) /\
  (0 < api_calls (calls s) ->
   truthy url = true /\ validateInstagramUrl (toString url) = true) /\
  (res_status (response s) = 200%Z -> 1 <= media_calls (calls s)).
Proof.
  unfold download.
  destruct (HandlerCases.download_try_cases w url)
    as (r & c & E & Ha & Hm & Hord & Hgate & Hr).
  rewrite E. destruct r as [[e res] | res]; intros H; injection H as <-; simpl.
  - repeat (split; [assumption|]). discriminate.
  - repeat (split; [assumption|]).
    destruct Hr as [(m & -> & _) | (ct & cl & fn & b & _ & _ & Hone)].
    + discriminate.
    + intros _. exact Hone.
Qed.

Lemma download_calls_invariant_witness :
  3 <= 4 /\ 1 <= 4 /\ (0 < 1 -> 1 <= 3) /\
  (0 < 3 ->
   truthy (VStr Scenario.testUrl) = true /\
   validateInstagramUrl (toString (VStr Scenario.testUrl)) = true) /\
  (200%Z = 200%Z -> 1 <= 1).
Proof.
  apply (@download_calls_invariant None (Scenario.w_500_first 2) (VStr Scenario.testUrl)
           (mkServed
              (mkRes 200
                 [("Content-Type", VStr "video/mp4");
                  ("Content-Length", VStr "4");
                  ("Content-Disposition", VStr "attachment; filename=v.mp4");
                  ("Accept-Ranges", VStr "bytes");
                  ("Cache-Control", VStr "public, max-age=3600")]
                 (Bytes Scenario.clip))
              (mkCalls 3 1))).
  reflexivity.
Defined.

(** X11: a resolver payload without a usable video URL ([data] missing or
    null, [videoUrl] missing, empty, null, 0 or false) is answered with
    400 "Failed to get video URL from API", and the media host is never
    contacted. *)
Theorem download_without_video_url (NODE_ENV : option string) (w : World) (u : string)
    (videoInfo vdata : value) (c1 : Calls) :
  validateInstagramUrl u = true ->
  fetchVideoInfo w u (mkCalls 0 0) = Some (inr videoInfo, c1) ->
  get videoInfo "data" = inr vdata ->
  truthy (get_opt vdata "videoUrl") = false ->
  download NODE_ENV w (VStr u) =
  Some (mkServed
          (mkRes 400 [] (Json (VObj [("error", VStr "Failed to get video URL from API")])))
          c1)
  /\ media_calls c1 = 0.
Proof.
  intros Hv Hf Hd Hu. split.
  - unfold download. rewrite (@HandlerFacts.download_try_resolved w u videoInfo c1 Hv Hf).
    destruct (ResolverPost.resolved_is_object w u (mkCalls 0 0) Hf) as [Ht Hty].
    destruct (ClientSteps.get_object videoInfo Ht Hty "status") as (vstatus & Hs).
    unfold bind at 1, on at 1, lift at 1. rewrite Hs.
    unfold bind at 1, on at 1, lift at 1. rewrite Hd.
    rewrite HandlerFacts.status_test_false, Hu. reflexivity.
  - destruct (ResolverFacts.fetchVideoInfo_total w u (mkCalls 0 0)) as (r & c' & E & _ & Hm).
    rewrite Hf in E. injection E as _ <-. exact Hm.
Qed.

Lemma download_without_video_url_witness :
  download None Upstreams.w_empty_info (VStr Scenario.testUrl) =
  Some (mkServed
          (mkRes 400 [] (Json (VObj [("error", VStr "Failed to get video URL from API")])))
          (mkCalls 1 0))
  /\ media_calls (mkCalls 1 0) = 0.
Proof.
  apply (@download_without_video_url None Upstreams.w_empty_info Scenario.testUrl
           (VObj []) VUndefined (mkCalls 1 0)); reflexivity.
Defined.

(** X12: a media fetch that fails (transport failure, size cap, rejected
    status, retries used up) is not answered with a 400: its error reaches
    the [catch] block and the answer is the 500 "Internal server error". *)
Theorem download_fetch_failure (NODE_ENV : option string) (w : World) (u : string)
    (fields dfields : list (string * value)) (videoUrl : value) (e : Error)
    (c1 c2 : Calls) :
  validateInstagramUrl u = true ->
  fetchVideoInfo w u (mkCalls 0 0) = Some (inr (VObj fields), c1) ->
  lookup "data" fields = Some (VObj dfields) ->
  lookup "videoUrl" dfields = Some videoUrl ->
  truthy videoUrl = true ->
  fetchVideo w videoUrl c1 = Some (inl e, c2) ->
  download NODE_ENV w (VStr u) =
  Some (mkServed
          (mkRes 500 []
             (Json (VObj [("error", VStr "Internal server error");
                          ("message",
                           VStr (if development NODE_ENV then message e
                                 else "Failed to process video download"))])))
          c2).
Proof.
  intros Hv Hf Hd Hu Ht Hm.
  unfold download.
  rewrite (@HandlerFacts.download_try_fetching w u fields dfields videoUrl c1 Hv Hf Hd Hu Ht).
  unfold bind at 1, on at 1. rewrite Hm. reflexivity.
Qed.

Lemma download_fetch_failure_witness :
  download (Some "development") Upstreams.w_media_404 (VStr Scenario.testUrl) =
  Some (mkServed
          (mkRes 500 []
             (Json (VObj [("error", VStr "Internal server error");
                          ("message",
                           VStr "Failed to fetch video: Request failed with status code 404")])))
          (mkCalls 1 1)).
Proof.
  apply (@download_fetch_failure (Some "development") Upstreams.w_media_404 Scenario.testUrl
           [("status", VStr "success");
            ("data", VObj [("videoUrl", VStr "https://x/video.mp4");
                           ("filename", VStr "v.mp4")])]
           [("videoUrl", VStr "https://x/video.mp4"); ("filename", VStr "v.mp4")]
           (VStr "https://x/video.mp4")
           (mkError "Failed to fetch video: Request failed with status code 404")
           (mkCalls 1 0) (mkCalls 1 1));
    reflexivity.
Defined.

(** X13: fetched bytes are passed on only under a content type that
    contains "video".  When the media answer has no content-type header,
    or one without "video" in it, the answer is 400
    "Invalid video content type": no header is set and no byte of the
    fetched body is sent. *)
Theorem download_invalid_content_type (NODE_ENV : option string) (w : World) (u : string)
    (fields dfields : list (string * value)) (videoUrl : value)
    (bytes : list Byte.byte) (hs : list (string * string)) (c1 c2 : Calls) :
  validateInstagramUrl u = true ->
  fetchVideoInfo w u (mkCalls 0 0) = Some (inr (VObj fields), c1) ->
  lookup "data" fields = Some (VObj dfields) ->
  lookup "videoUrl" dfields = Some videoUrl ->
  truthy videoUrl = true ->
  fetchVideo w videoUrl c1 = Some (inr (mkVideoResponse bytes hs), c2) ->
  (forall ct, lookup "content-type" hs = Some ct -> Str.includes "video" ct = false) ->
  download NODE_ENV w (VStr u) =
  Some (mkServed
          (mkRes 400 [] (Json (VObj [("error", VStr "Invalid video content type")])))
          c2).
Proof.
  intros Hv Hf Hd Hu Ht Hm Hct.
  unfold download.
  rewrite (@HandlerFacts.download_try_fetching w u fields dfields videoUrl c1 Hv Hf Hd Hu Ht).
  unfold bind at 1, on at 1. rewrite Hm. cbn [vr_headers].
  destruct (lookup "content-type" hs) as [ct|] eqn:E; [|reflexivity].
  rewrite (Hct ct eq_refl). reflexivity.
Qed.

Lemma download_invalid_content_type_witness :
  download None Upstreams.w_media_untyped (VStr Scenario.testUrl) =
  Some (mkServed
          (mkRes 400 [] (Json (VObj [("error", VStr "Invalid video content type")])))
          (mkCalls 1 1)).
Proof.
  apply (@download_invalid_content_type None Upstreams.w_media_untyped Scenario.testUrl
           [("status", VStr "success");
            ("data", VObj [("videoUrl", VStr "https://x/video.mp4");
                           ("filename", VStr "v.mp4")])]
           [("videoUrl", VStr "https://x/video.mp4"); ("filename", VStr "v.mp4")]
           (VStr "https://x/video.mp4") Scenario.clip [("content-length", "4")]
           (mkCalls 1 0) (mkCalls 1 1));
    try reflexivity.
  intros ct H. discriminate H.
Defined.

(** X14: in development the two 500 bodies carry the internal message
    itself: the responses built for two errors coincide exactly when the
    errors' messages do, in the route's [catch] block and in the error
    middleware alike. *)
Theorem development_exposes_message (e1 e2 : Error) :
  (download_catch (Some "development") e1 = download_catch (Some "development") e2
   <-> message e1 = message e2) /\
  (error_middleware (Some "development") e1 = error_middleware (Some "development") e2
   <-> message e1 = message e2).
Proof.
  unfold download_catch, download_catch_on, error_middleware. simpl.
  split; split; intros H.
  - now injection H.
  - now rewrite H.
  - now injection H.
  - now rewrite H.
Qed.

(** * Further properties of the validator *)

(** X15: the validator pins scheme, host and path: whatever it accepts
    begins with [https://instagram.com/reel/] or with
    [https://www.instagram.com/reel/]. *)
Theorem validateInstagramUrl_host (s : string) :
  validateInstagramUrl s = true ->
  prefix "https://instagram.com/reel/" s = true \/
  prefix "https://www.instagram.com/reel/" s = true.
Proof.
  unfold validateInstagramUrl. rewrite RegexFacts.test_prefix_spec.
  intros (p & q & -> & H).
  apply ValidatorFacts.reel_regex_words in H as (www & id & Hw & _ & _ & ->).
  destruct Hw as [-> | ->]; [left | right]; simpl; destruct (id ++ q); reflexivity.
Qed.

Lemma validateInstagramUrl_host_witness :
  prefix "https://instagram.com/reel/" Scenario.testUrl = true \/
  prefix "https://www.instagram.com/reel/" Scenario.testUrl = true.
Proof.
  apply (validateInstagramUrl_host Scenario.testUrl). reflexivity.
Defined.

(** X16: the validator looks at the beginning only: appending anything to
    an accepted string keeps it accepted. *)
Theorem validateInstagramUrl_extend (s t : string) :
  validateInstagramUrl s = true -> validateInstagramUrl (s ++ t) = true.
Proof.
  unfold validateInstagramUrl. rewrite !RegexFacts.test_prefix_spec.
  intros (p & q & -> & H). exists p, (q ++ t).
  split; [apply StrFacts.append_assoc | exact H].
Qed.

Lemma validateInstagramUrl_extend_witness :
  validateInstagramUrl (Scenario.testUrl ++ "/?utm_source=ig_web_copy_link") = true.
Proof.
  apply (@validateInstagramUrl_extend Scenario.testUrl "/?utm_source=ig_web_copy_link").
  reflexivity.
Defined.

(** X17: a [url] parameter that arrives as a one-element array (as the
    query parser builds for [url[]=...]) is coerced to its element by the
    pattern test and by the resolver request alike, so the request is
    served exactly like the one with the plain string. *)
Theorem download_singleton_array (NODE_ENV : option string) (w : World) (u : string) :
  u <> "" ->
  download NODE_ENV w (VArr [VStr u]) = download NODE_ENV w (VStr u).
Proof.
  intros Hne. unfold download, download_try.
  change (ToString (VArr [VStr u])) with (@inr Error string (u ++ "")).
  rewrite StrFacts.append_nil_r.
  change (ToString (VStr u)) with (@inr Error string u).
  change (truthy (VArr [VStr u])) with true.
  replace (truthy (VStr u)) with true; [reflexivity|].
  simpl. apply String.eqb_neq in Hne. now rewrite Hne.
Qed.

Lemma download_singleton_array_witness :
  download None (Scenario.w_ok (VStr "success")) (VArr [VStr Scenario.testUrl]) =
  download None (Scenario.w_ok (VStr "success")) (VStr Scenario.testUrl).
Proof.
  apply (@download_singleton_array None (Scenario.w_ok (VStr "success")) Scenario.testUrl).
  discriminate.
Defined.
